(** * The Qt bridge of wails (v2/internal/frontend/desktop/qt)

    A shallow embedding of [lib.cpp] and [lib.hpp]: the C-callable functions
    through which a host process drives a QApplication, a top-level QWidget
    and the QWebEngineView inside it, and the signal fix-up the bridge
    performs when it is loaded into the host.

    C [int] values are modelled as [Z]; the bridge performs no arithmetic on
    them besides bitwise or / exclusive or and comparisons, so no wrap-around
    can occur.  Pointers are addresses ([N], null being 0) into an explicit
    object store. *)

From Stdlib Require Import ZArith QArith String Ascii List Bool Lia DecimalString.
From stdpp Require Import base option list gmap strings.
Import ListNotations.

Local Open Scope string_scope.
Local Open Scope Z_scope.

(** Decimal rendering of a C [int], as [printf("%d")] and the JSON writer
    produce it. *)
Definition decimal (z : Z) : string := NilZero.string_of_int (Z.to_int z).

Definition newline : string := String (ascii_of_nat 10) EmptyString.

(* ===================================================================== *)
(** ** Signals: [fix_signal] and [install_signal_handlers]               *)
(* ===================================================================== *)

Module Posix.

(** [struct sigaction] (Linux layout: handler, mask, flags, restorer).
    Function pointers are addresses; the mask is a bit set. *)
Record sigaction_t := mk_sigaction {
  sa_handler  : Z;
  sa_mask     : N;
  sa_flags    : Z;
  sa_restorer : Z;
}.

(** <signal.h> and <errno.h> constants (Linux, x86-64). *)
Definition SA_ONSTACK : Z := 0x08000000.
Definition SA_ONSTACK_bit : Z := 27.
Definition SA_RESTORER : Z := 0x04000000.
Definition SA_RESTORER_bit : Z := 26.

Definition SIGHUP  : Z := 1.
Definition SIGINT  : Z := 2.
Definition SIGQUIT : Z := 3.
Definition SIGABRT : Z := 6.
Definition SIGBUS  : Z := 7.
Definition SIGFPE  : Z := 8.
Definition SIGKILL : Z := 9.
Definition SIGSEGV : Z := 11.
Definition SIGTERM : Z := 15.
Definition SIGCHLD : Z := 17.
Definition SIGSTOP : Z := 19.
Definition SIGXCPU : Z := 24.
Definition SIGXFSZ : Z := 25.

Definition EINVAL : Z := 22.

(** The part of the host process the signal code touches: the disposition
    of every signal the kernel knows (the domain of the map is the set of
    valid signal numbers), [errno], what has been written to stderr, and the
    address of the signal trampoline of the C library loaded in the process
    ([__restore_rt]). *)
Record process := mk_process {
  dispositions  : gmap Z sigaction_t;
  errno         : Z;
  stderr        : list string;
  libc_restorer : Z;
}.

Definition set_errno (e : Z) (p : process) : process :=
  {| dispositions := dispositions p; errno := e; stderr := stderr p;
     libc_restorer := libc_restorer p |}.

Definition set_disposition (signum : Z) (a : sigaction_t) (p : process) : process :=
  {| dispositions := <[signum := a]> (dispositions p);
     errno := errno p; stderr := stderr p;
     libc_restorer := libc_restorer p |}.

Definition write_stderr (s : string) (p : process) : process :=
  {| dispositions := dispositions p; errno := errno p;
     stderr := (stderr p ++ [s])%list;
     libc_restorer := libc_restorer p |}.

(** What the C library hands to the kernel when it installs [act]: on
    x86-64 it ors SA_RESTORER into the flags and puts its own trampoline in
    [sa_restorer], whatever [act] holds there. *)
Definition kernel_action (restorer : Z) (act : sigaction_t) : sigaction_t :=
  {| sa_handler := sa_handler act; sa_mask := sa_mask act;
     sa_flags := Z.lor (sa_flags act) SA_RESTORER;
     sa_restorer := restorer |}.

(** SIGKILL and SIGSTOP can be queried but never changed. *)
Definition uncatchable (signum : Z) : bool :=
  (signum =? SIGKILL) || (signum =? SIGSTOP).

(** [sigaction(signum, act, oldact)] of the C library.  [act = None] is a
    null [act]; the second component of the result is what the call stores
    through a non-null [oldact] (nothing on failure): the disposition as the
    kernel holds it.  An installing call stores [kernel_action] of [act].
    A failing call returns -1, sets [errno] and leaves every disposition as
    it was. *)
Definition sigaction (signum : Z) (act : option sigaction_t) (p : process)
  : Z * option sigaction_t * process :=
  match dispositions p !! signum with
  | None => (-1, None, set_errno EINVAL p)
  | Some old =>
      match act with
      | None => (0, Some old, p)
      | Some new =>
          if uncatchable signum then (-1, None, set_errno EINVAL p)
          else (0, Some old,
                set_disposition signum (kernel_action (libc_restorer p) new) p)
      end
  end.

(** [strerror] of the C library, for the error numbers [sigaction] sets. *)
Definition strerror (e : Z) : string :=
  if e =? EINVAL then "Invalid argument" else "Unknown error " +:+ decimal e.

(** The text [fprintf] writes at label [fix_signal_error]. *)
Definition fix_signal_message (signum : Z) (e : Z) : string :=
  "error fixing handler for signal " +:+ decimal signum +:+ ", please "
  +:+ "report this issue to "
  +:+ "https://github.com/wailsapp/wails: " +:+ strerror e +:+ newline.

Definition fix_signal_error (signum : Z) (p : process) : process :=
  write_stderr (fix_signal_message signum (errno p)) p.

(** [st.sa_flags |= SA_ONSTACK] *)
Definition or_onstack (st : sigaction_t) : sigaction_t :=
  {| sa_handler := sa_handler st; sa_mask := sa_mask st;
     sa_flags := Z.lor (sa_flags st) SA_ONSTACK;
     sa_restorer := sa_restorer st |}.

(** [void fix_signal(int signum)].  The local [st] is written by the first
    call and read only after that call succeeded. *)
Definition fix_signal (signum : Z) (p : process) : process :=
  let '(r1, st, p1) := sigaction signum None p in
  if r1 <? 0 then fix_signal_error signum p1
  else
    match st with
    | None => p1 (* unreachable: a successful query fills [st] *)
    | Some st =>
        let st := or_onstack st in
        let '(r2, _, p2) := sigaction signum (Some st) p1 in
        if r2 <? 0 then fix_signal_error signum p2
        else p2
    end.

(** [void install_signal_handlers()]: every [#if defined(SIG...)] holds on
    Linux, so all eleven calls are made, in source order. *)
Definition install_signal_handlers (p : process) : process :=
  fold_left (fun p s => fix_signal s p)
    [SIGCHLD; SIGHUP; SIGINT; SIGQUIT; SIGABRT; SIGFPE; SIGTERM;
     SIGBUS; SIGSEGV; SIGXCPU; SIGXFSZ] p.

(** What happens to the two [sigaction] calls of [fix_signal signum] when
    it runs in [p]: the query of the current disposition, and, when the
    query succeeded and filled [st], the installation of the changed one. *)
Definition query (signum : Z) (p : process) : Z * option sigaction_t * process :=
  sigaction signum None p.

Definition query_fails (signum : Z) (p : process) : Prop :=
  (query signum p).1.1 < 0.

Definition install_fails (signum : Z) (p : process) : Prop :=
  exists st, 0 <= (query signum p).1.1 /\ (query signum p).1.2 = Some st /\
    (sigaction signum (Some (or_onstack st)) (query signum p).2).1.1 < 0.

Definition both_succeed (signum : Z) (p : process) : Prop :=
  exists st, 0 <= (query signum p).1.1 /\ (query signum p).1.2 = Some st /\
    0 <= (sigaction signum (Some (or_onstack st)) (query signum p).2).1.1.

(** The disposition [fix_signal] leaves for a signal whose disposition was
    [old], in a process whose C library has its trampoline at [restorer]. *)
Definition fixed (restorer : Z) (old : sigaction_t) : sigaction_t :=
  kernel_action restorer (or_onstack old).

(** The signals [install_signal_handlers] passes to [fix_signal], in source
    order. *)
Definition handled_signals : list Z :=
  [SIGCHLD; SIGHUP; SIGINT; SIGQUIT; SIGABRT; SIGFPE; SIGTERM;
   SIGBUS; SIGSEGV; SIGXCPU; SIGXFSZ].

(** [signum] is a signal number the process knows. *)
Definition known (signum : Z) (p : process) : bool :=
  bool_decide (is_Some (dispositions p !! signum)).

End Posix.

(* ===================================================================== *)
(** ** Qt value types the bridge passes around                           *)
(* ===================================================================== *)

(** Addresses.  [nullptr] is address 0. *)
Definition ptr := N.
Definition nullptr : ptr := 0%N.

(** A [QString] is a sequence of UTF-16 code units. *)
Definition QString := list N.

(** Qt's text conversions are the toolkit's, not the bridge's: they are
    taken as parameters.  [fromUtf8] is [QString::fromUtf8], which also
    backs the implicit conversions [QString(const char * )] and
    [QString(const QByteArray &)]; [toLocal8Bit] is [QString::toLocal8Bit]. *)
Class QtText := {
  fromUtf8    : string -> QString;
  toLocal8Bit : QString -> string;
}.

(** A conversion that agrees with Qt's on 7-bit text, for running the model
    on examples. *)
Definition ascii_text : QtText :=
  {| fromUtf8 s := map N_of_ascii (list_ascii_of_string s);
     toLocal8Bit q := string_of_list_ascii (map ascii_of_N q) |}.

Record QSize := mk_QSize { width : Z; height : Z }.

(** [QSizeF]: a pair of [qreal]; the doubles are approximated by rationals. *)
Record QSizeF := mk_QSizeF { fwidth : Q; fheight : Q }.

(** The C cast [(int) d] of a double: truncation toward zero. *)
Definition int_of_qreal (d : Q) : Z := Z.quot (Qnum d) (Zpos (Qden d)).

Record QUrl := mk_QUrl { url_text : QString }.

(** [enum Qt::WindowState] of <qnamespace.h>. *)
Definition WindowNoState    : Z := 0x0.
Definition WindowMinimized  : Z := 0x1.
Definition WindowMaximized  : Z := 0x2.
Definition WindowFullScreen : Z := 0x4.
Definition WindowActive     : Z := 0x8.

Definition QWIDGETSIZE_MAX : Z := 16777215.

(* ===================================================================== *)
(** ** QJsonValue, QJsonObject, QJsonArray and the compact writer        *)
(* ===================================================================== *)

Module Json.

#[local] Set Warnings "-register-all".

(** The kinds of [QJsonValue] the bridge builds.  An [int] is stored as a
    double holding exactly that integer. *)
Inductive QJsonValue :=
| JBool (b : bool)
| JInt (n : Z)
| JArray (items : list QJsonValue)
| JObject (members : list (string * QJsonValue)).

(** A [QJsonObject] keeps its members sorted by key, one member per key. *)
Definition QJsonObject := list (string * QJsonValue).
Definition QJsonArray := list QJsonValue.

(** [obj[key] = v]: replaces the member named [key] or inserts it at its
    place in key order. *)
Fixpoint insert (key : string) (v : QJsonValue) (o : QJsonObject) : QJsonObject :=
  match o with
  | [] => [(key, v)]
  | (k, x) :: rest =>
      match String.compare key k with
      | Lt => (key, v) :: (k, x) :: rest
      | Eq => (key, v) :: rest
      | Gt => (k, x) :: insert key v rest
      end
  end.

(** [obj.value(key)] *)
Fixpoint value (key : string) (o : QJsonObject) : option QJsonValue :=
  match o with
  | [] => None
  | (k, x) :: rest => if String.eqb key k then Some x else value key rest
  end.

Definition keys (o : QJsonObject) : list string := map fst o.

(** [arr.push_back(v)] *)
Definition push_back (v : QJsonValue) (a : QJsonArray) : QJsonArray := (a ++ [v])%list.

(** The double quote character (code 34). *)
Definition dquote : string := String (ascii_of_nat 34) EmptyString.

Definition quoted (s : string) : string := dquote +:+ s +:+ dquote.

Fixpoint join (sep : string) (l : list string) : string :=
  match l with
  | [] => EmptyString
  | [x] => x
  | x :: rest => x +:+ sep +:+ join sep rest
  end.

(** [QJsonDocument::toJson(QJsonDocument::Compact)]: no white space, members
    as ["key":value], elements and members separated by commas.  The keys
    the bridge uses need no escaping. *)
Fixpoint toJson (v : QJsonValue) : string :=
  match v with
  | JBool true => "true"
  | JBool false => "false"
  | JInt n => decimal n
  | JArray items => "[" +:+ join "," (map toJson items) +:+ "]"
  | JObject members =>
      "{" +:+ join "," (map (fun kv => quoted (fst kv) +:+ ":" +:+ toJson (snd kv)) members)
      +:+ "}"
  end.

End Json.

(* ===================================================================== *)
(** ** The toolkit: objects, the object store, and the bridge monad      *)
(* ===================================================================== *)

Module Qt.

Record QScreen := mk_QScreen {
  screen_size         : QSize;    (* QScreen::size(), pixels *)
  screen_physicalSize : QSizeF;   (* QScreen::physicalSize(), millimetres *)
}.

(** The state behind the static members of QApplication the bridge calls:
    [screens()] (each [QScreen *] with the object it points to),
    [primaryScreen()], [focusWidget()] (null when no widget has focus), the
    screen [w->window()->windowHandle()->screen()] of a widget, and whether
    [quit()] was requested. *)
Record QApplication := mk_QApplication {
  screens        : list (ptr * QScreen);
  primaryScreen  : ptr;
  focusWidget    : ptr;
  screen_of      : ptr -> ptr;
  quit_requested : bool;
}.

Record QWidget := mk_QWidget {
  size         : QSize;
  minimumSize  : QSize;
  maximumSize  : QSize;
  windowTitle  : QString;
  windowState  : Z;       (* Qt::WindowStates *)
  visible      : bool;
  layout       : ptr;     (* the layout installed on the widget, or null *)
}.

Record QVBoxLayout := mk_QVBoxLayout {
  layout_parent   : ptr;
  contentsMargins : Z * Z * Z * Z;   (* left, top, right, bottom *)
  spacing         : Z;
  items           : list ptr;        (* the widgets added, top to bottom *)
}.

Record QWebEngineView := mk_QWebEngineView {
  view_parent : ptr;
  loading     : option QUrl;     (* the URL last passed to load() *)
  reloads     : N;               (* number of reload() requests *)
  scripts     : list QString;    (* scripts passed to page()->runJavaScript *)
}.

(** [struct Window] of lib.hpp. *)
Record Window := mk_Window {
  window          : ptr;
  window_layout   : ptr;
  web_engine_view : ptr;
}.

Inductive object :=
| OWidget (w : QWidget)
| OLayout (l : QVBoxLayout)
| OView (v : QWebEngineView)
| OWindow (w : Window)
| OByteArray (bytes : string).

(** The thread a piece of code runs on: the thread of the host that called
    into the bridge, or the thread the QApplication lives on. *)
Inductive thread := HostThread | AppThread.

Record toolkit := mk_toolkit {
  app      : QApplication;
  heap     : gmap N object;
  calls    : list (thread * string);    (* toolkit calls made, with their thread *)
  messages : list (string * QString);   (* qInfo() output *)
}.

Definition set_app (a : QApplication) (t : toolkit) : toolkit :=
  {| app := a; heap := heap t; calls := calls t; messages := messages t |}.
Definition set_heap (h : gmap N object) (t : toolkit) : toolkit :=
  {| app := app t; heap := h; calls := calls t; messages := messages t |}.
Definition add_call (c : thread * string) (t : toolkit) : toolkit :=
  {| app := app t; heap := heap t; calls := (calls t ++ [c])%list;
     messages := messages t |}.
Definition add_message (m : string * QString) (t : toolkit) : toolkit :=
  {| app := app t; heap := heap t; calls := calls t;
     messages := (messages t ++ [m])%list |}.

(** The toolkit after the calls [names] were made, in this order, on
    thread [th]. *)
Definition called (th : thread) (names : list string) (t : toolkit) : toolkit :=
  fold_left (fun t n => add_call (th, n) t) names t.

(** Bridge code runs on some thread, reads and updates the toolkit, and is
    undefined ([None]) when it dereferences a pointer that does not point to
    a live object of the expected class.  The store holds what the bridge
    itself creates and sets: windows, their layout, the views and what was
    asked of them. *)
Definition Bridge (A : Type) : Type := thread -> toolkit -> option (A * toolkit).

Definition ret {A} (x : A) : Bridge A := fun _ t => Some (x, t).
Definition bind {A B} (m : Bridge A) (k : A -> Bridge B) : Bridge B :=
  fun th t => match m th t with
              | Some (x, t') => k x th t'
              | None => None
              end.
Definition undefined {A} : Bridge A := fun _ _ => None.

Declare Scope bridge_scope.
Delimit Scope bridge_scope with bridge.
Notation "x <- m ;; k" := (bind m (fun x => k))
  (at level 100, m at next level, right associativity) : bridge_scope.
Notation "m ;; k" := (bind m (fun _ => k))
  (at level 100, right associativity) : bridge_scope.
Local Open Scope bridge_scope.

Definition get : Bridge toolkit := fun _ t => Some (t, t).
Definition modify (f : toolkit -> toolkit) : Bridge unit := fun _ t => Some (tt, f t).

(** Every call into the toolkit is recorded with the thread it runs on. *)
Definition toolkit_call (name : string) : Bridge unit :=
  fun th t => Some (tt, add_call (th, name) t).

(** An address that is not null and holds no object. *)
Definition fresh_addr (h : gmap N object) : ptr :=
  fresh ({[nullptr]} ∪ dom h : gset N).

(** [new T(...)]: a fresh non-null address holding the object. *)
Definition new (o : object) : Bridge ptr :=
  fun _ t =>
    let p := fresh_addr (heap t) in
    Some (p, set_heap (<[p := o]> (heap t)) t).

(** Destruction of an object: its storage is released. *)
Definition destroy (p : ptr) : Bridge unit :=
  modify (fun t => set_heap (delete p (heap t)) t).

(** The windows of the model are the top-level widgets, [OWidget].  A
    QWebEngineView is a QWidget too, but what Qt keeps for a child widget
    (its geometry, which the layout of the parent computes, its visibility,
    which follows the parent's) is not part of the store: a window
    operation applied to a view is outside the model. *)
Definition the_widget (p : ptr) : Bridge QWidget :=
  t <- get ;;
  match heap t !! p with Some (OWidget w) => ret w | _ => undefined end.
Definition the_layout (p : ptr) : Bridge QVBoxLayout :=
  t <- get ;;
  match heap t !! p with Some (OLayout l) => ret l | _ => undefined end.
Definition the_view (p : ptr) : Bridge QWebEngineView :=
  t <- get ;;
  match heap t !! p with Some (OView v) => ret v | _ => undefined end.

Definition store (p : ptr) (o : object) : Bridge unit :=
  modify (fun t => set_heap (<[p := o]> (heap t)) t).

(** *** The toolkit methods the bridge calls

    Each method records its call and then acts on the object store as Qt
    documents it. *)

Definition set_size (sz : QSize) (w : QWidget) : QWidget :=
  {| size := sz; minimumSize := minimumSize w; maximumSize := maximumSize w;
     windowTitle := windowTitle w; windowState := windowState w;
     visible := visible w; layout := layout w |}.
Definition set_minimumSize (sz : QSize) (w : QWidget) : QWidget :=
  {| size := size w; minimumSize := sz; maximumSize := maximumSize w;
     windowTitle := windowTitle w; windowState := windowState w;
     visible := visible w; layout := layout w |}.
Definition set_windowTitle (s : QString) (w : QWidget) : QWidget :=
  {| size := size w; minimumSize := minimumSize w; maximumSize := maximumSize w;
     windowTitle := s; windowState := windowState w;
     visible := visible w; layout := layout w |}.
Definition set_windowState (st : Z) (w : QWidget) : QWidget :=
  {| size := size w; minimumSize := minimumSize w; maximumSize := maximumSize w;
     windowTitle := windowTitle w; windowState := st;
     visible := visible w; layout := layout w |}.
Definition set_visible (b : bool) (w : QWidget) : QWidget :=
  {| size := size w; minimumSize := minimumSize w; maximumSize := maximumSize w;
     windowTitle := windowTitle w; windowState := windowState w;
     visible := b; layout := layout w |}.
Definition set_layout (l : ptr) (w : QWidget) : QWidget :=
  {| size := size w; minimumSize := minimumSize w; maximumSize := maximumSize w;
     windowTitle := windowTitle w; windowState := windowState w;
     visible := visible w; layout := l |}.

(** A size as the window system accepts it for a widget: not above the
    maximum size, not below the minimum size. *)
Definition constrained (w : QWidget) (sz : QSize) : QSize :=
  {| width  := Z.max (Z.min (width sz) (width (maximumSize w))) (width (minimumSize w));
     height := Z.max (Z.min (height sz) (height (maximumSize w))) (height (minimumSize w)) |}.

(** [new QWidget()]: a hidden top-level widget without constraints. *)
Definition default_widget : QWidget :=
  {| size := mk_QSize 640 480;
     minimumSize := mk_QSize 0 0;
     maximumSize := mk_QSize QWIDGETSIZE_MAX QWIDGETSIZE_MAX;
     windowTitle := [];
     windowState := WindowNoState;
     visible := false;
     layout := nullptr |}.

Definition QWidget_new : Bridge ptr :=
  toolkit_call "QWidget::QWidget" ;;
  new (OWidget default_widget).

(** [w->resize(width, height)] of a window.  The store records the size of
    the window; the layout of the window then gives its children their
    geometry, which the store does not record. *)
Definition QWidget_resize (p : ptr) (wd ht : Z) : Bridge unit :=
  toolkit_call "QWidget::resize" ;;
  w <- the_widget p ;;
  store p (OWidget (set_size (constrained w (mk_QSize wd ht)) w)).

(** [w->setMinimumSize(minw, minh)]: the minimum is kept within
    [0, QWIDGETSIZE_MAX], and a widget smaller than its new minimum grows
    to it. *)
Definition QWidget_setMinimumSize (p : ptr) (minw minh : Z) : Bridge unit :=
  toolkit_call "QWidget::setMinimumSize" ;;
  w <- the_widget p ;;
  let mw := Z.max 0 (Z.min minw QWIDGETSIZE_MAX) in
  let mh := Z.max 0 (Z.min minh QWIDGETSIZE_MAX) in
  let w' := set_minimumSize (mk_QSize mw mh) w in
  store p (OWidget
    (set_size (mk_QSize (Z.max mw (width (size w'))) (Z.max mh (height (size w')))) w')).

(** [w->show()] *)
Definition QWidget_show (p : ptr) : Bridge unit :=
  toolkit_call "QWidget::show" ;;
  w <- the_widget p ;;
  store p (OWidget (set_visible true w)).

(** [w->setWindowTitle(title)] *)
Definition QWidget_setWindowTitle (p : ptr) (title : QString) : Bridge unit :=
  toolkit_call "QWidget::setWindowTitle" ;;
  w <- the_widget p ;;
  store p (OWidget (set_windowTitle title w)).

(** [w->windowState()] *)
Definition QWidget_windowState (p : ptr) : Bridge Z :=
  toolkit_call "QWidget::windowState" ;;
  w <- the_widget p ;;
  ret (windowState w).

(** [w->setWindowState(state)] *)
Definition QWidget_setWindowState (p : ptr) (st : Z) : Bridge unit :=
  toolkit_call "QWidget::setWindowState" ;;
  w <- the_widget p ;;
  store p (OWidget (set_windowState st w)).

(** [w->showMinimized()]: minimized and no longer active, and shown. *)
Definition QWidget_showMinimized (p : ptr) : Bridge unit :=
  toolkit_call "QWidget::showMinimized" ;;
  w <- the_widget p ;;
  let st := Z.lor (Z.land (windowState w) (Z.lnot WindowActive)) WindowMinimized in
  store p (OWidget (set_visible true (set_windowState st w))).

(** [w->showNormal()]: neither minimized, maximized nor full screen, and
    shown. *)
Definition QWidget_showNormal (p : ptr) : Bridge unit :=
  toolkit_call "QWidget::showNormal" ;;
  w <- the_widget p ;;
  let st := Z.land (windowState w)
              (Z.lnot (Z.lor WindowMinimized (Z.lor WindowMaximized WindowFullScreen))) in
  store p (OWidget (set_visible true (set_windowState st w))).

(** No top-level window of the store is visible. *)
Definition no_window_visible (h : gmap N object) : bool :=
  forallb (fun po => match snd po with
                     | OWidget w => negb (visible w)
                     | _ => true
                     end)
          (map_to_list h).

Definition request_quit (a : QApplication) : QApplication :=
  {| screens := screens a; primaryScreen := primaryScreen a;
     focusWidget := focusWidget a; screen_of := screen_of a;
     quit_requested := true |}.

(** What Qt does once a window has been closed: when no visible top-level
    window is left, the application is asked to quit.  This is the default
    ([quitOnLastWindowClosed] is true) and the bridge never changes it. *)
Definition quit_if_last_window_closed : Bridge unit :=
  t <- get ;;
  if no_window_visible (heap t)
  then modify (fun t => set_app (request_quit (app t)) t)
  else ret tt.

(** [w->close()]: the window is hidden, and the application quits if it
    was the last one to be seen. *)
Definition QWidget_close (p : ptr) : Bridge unit :=
  toolkit_call "QWidget::close" ;;
  w <- the_widget p ;;
  store p (OWidget (set_visible false w)) ;;
  quit_if_last_window_closed.

(** [new QVBoxLayout(parent)]: margins and spacing left to the style (-1),
    installed as the layout of [parent]. *)
Definition QVBoxLayout_new (parent : ptr) : Bridge ptr :=
  toolkit_call "QVBoxLayout::QVBoxLayout" ;;
  w <- the_widget parent ;;
  l <- new (OLayout {| layout_parent := parent;
                       contentsMargins := (-1, -1, -1, -1);
                       spacing := -1;
                       items := [] |}) ;;
  store parent (OWidget (set_layout l w)) ;;
  ret l.

Definition QLayout_setContentsMargins (p : ptr) (l t r b : Z) : Bridge unit :=
  toolkit_call "QLayout::setContentsMargins" ;;
  lay <- the_layout p ;;
  store p (OLayout {| layout_parent := layout_parent lay;
                      contentsMargins := (l, t, r, b);
                      spacing := spacing lay;
                      items := items lay |}).

Definition QLayout_setSpacing (p : ptr) (s : Z) : Bridge unit :=
  toolkit_call "QBoxLayout::setSpacing" ;;
  lay <- the_layout p ;;
  store p (OLayout {| layout_parent := layout_parent lay;
                      contentsMargins := contentsMargins lay;
                      spacing := s;
                      items := items lay |}).

(** [layout->addWidget(w)]: appended below the widgets already there. *)
Definition QLayout_addWidget (p : ptr) (w : ptr) : Bridge unit :=
  toolkit_call "QBoxLayout::addWidget" ;;
  lay <- the_layout p ;;
  _ <- the_view w ;;
  store p (OLayout {| layout_parent := layout_parent lay;
                      contentsMargins := contentsMargins lay;
                      spacing := spacing lay;
                      items := (items lay ++ [w])%list |}).

(** [new QWebEngineView(parent)] *)
Definition QWebEngineView_new (parent : ptr) : Bridge ptr :=
  toolkit_call "QWebEngineView::QWebEngineView" ;;
  _ <- the_widget parent ;;
  new (OView {| view_parent := parent; loading := None; reloads := 0%N; scripts := [] |}).

(** [view->load(url)] *)
Definition QWebEngineView_load (p : ptr) (url : QUrl) : Bridge unit :=
  toolkit_call "QWebEngineView::load" ;;
  v <- the_view p ;;
  store p (OView {| view_parent := view_parent v; loading := Some url;
                    reloads := reloads v; scripts := scripts v |}).

(** [view->reload()] *)
Definition QWebEngineView_reload (p : ptr) : Bridge unit :=
  toolkit_call "QWebEngineView::reload" ;;
  v <- the_view p ;;
  store p (OView {| view_parent := view_parent v; loading := loading v;
                    reloads := N.succ (reloads v); scripts := scripts v |}).

(** [view->page()->runJavaScript(script)] *)
Definition QWebEnginePage_runJavaScript (p : ptr) (script : QString) : Bridge unit :=
  toolkit_call "QWebEnginePage::runJavaScript" ;;
  v <- the_view p ;;
  store p (OView {| view_parent := view_parent v; loading := loading v;
                    reloads := reloads v; scripts := (scripts v ++ [script])%list |}).

(** The static members of QApplication: they act on the one application
    object of the process, whatever pointer they are called through. *)
Definition QApplication_quit : Bridge unit :=
  toolkit_call "QCoreApplication::quit" ;;
  modify (fun t =>
    set_app {| screens := screens (app t); primaryScreen := primaryScreen (app t);
               focusWidget := focusWidget (app t); screen_of := screen_of (app t);
               quit_requested := true |} t).

Definition QApplication_screens : Bridge (list (ptr * QScreen)) :=
  toolkit_call "QGuiApplication::screens" ;;
  t <- get ;; ret (screens (app t)).

Definition QApplication_primaryScreen : Bridge ptr :=
  toolkit_call "QGuiApplication::primaryScreen" ;;
  t <- get ;; ret (primaryScreen (app t)).

Definition QApplication_focusWidget : Bridge ptr :=
  toolkit_call "QApplication::focusWidget" ;;
  t <- get ;; ret (focusWidget (app t)).

(** [w->window()->windowHandle()->screen()] *)
Definition QWidget_window_screen (w : ptr) : Bridge ptr :=
  toolkit_call "QWidget::window" ;;
  toolkit_call "QWidget::windowHandle" ;;
  toolkit_call "QWindow::screen" ;;
  t <- get ;; ret (screen_of (app t) w).

Definition QScreen_size (s : QScreen) : Bridge QSize :=
  toolkit_call "QScreen::size" ;; ret (screen_size s).

Definition QScreen_physicalSize (s : QScreen) : Bridge QSizeF :=
  toolkit_call "QScreen::physicalSize" ;; ret (screen_physicalSize s).

(** [qInfo() << tag << s] *)
Definition qInfo (tag : string) (s : QString) : Bridge unit :=
  modify (add_message (tag, s)).

(** A toolkit to run examples on: no screens, and one hidden, maximized
    window at address 5. *)
Definition one_window : toolkit :=
  mk_toolkit (mk_QApplication [] nullptr nullptr (fun _ => nullptr) false)
    {[ 5%N := OWidget (set_windowState WindowMaximized default_widget) ]} [] [].

(** *** Where toolkit calls are made

    [emits Q m]: running [m] on thread [th] only adds toolkit calls, and
    each call it adds is made on a thread [c] with [Q th c]. *)
Definition emits {A} (Q : thread -> thread -> Prop) (m : Bridge A) : Prop :=
  forall th t x t', m th t = Some (x, t') ->
    exists cs, calls t' = (calls t ++ cs)%list /\ Forall (fun c => Q th c.1) cs.


Definition on_caller : thread -> thread -> Prop := fun th c => c = th.

End Qt.

(* ===================================================================== *)
(** ** lib.cpp: the functions of the bridge                              *)
(* ===================================================================== *)

Module Bridge.
Import Qt Json.
Local Open Scope bridge_scope.

(** Modelled from the spec: [runOnAppThread], the helper of util.hpp, whose
    code is not available.  The bridge is "hopping onto the correct UI
    thread": the closure runs on the thread of the application, the caller
    waits for it and receives its result.  [obj] is the object whose thread
    is meant. *)
Definition runOnAppThread {A} (obj : ptr) (f : Bridge A) : Bridge A :=
  fun _ t => f AppThread t.

Section WithText.
Context {text : QtText}.

(** *** Application

    [Application_new] starts the QApplication on a thread of its own and
    returns once its event loop runs; what it sets up is the [toolkit] the
    functions below run in. *)

Definition Application_quit (app_ptr : ptr) : Bridge unit :=
  runOnAppThread app_ptr QApplication_quit.

(** The body of the loop over [screens] in [Application_get_screens]:
    the object [s] built for one screen. *)
Definition screen_object (currentScreen primaryScreen : ptr)
    (screen : ptr * QScreen) : Bridge QJsonObject :=
  let s : QJsonObject := [] in
  let s := insert "isCurrent" (JBool (N.eqb currentScreen (fst screen))) s in
  let s := insert "isPrimary" (JBool (N.eqb primaryScreen (fst screen))) s in
  screenSize <- QScreen_size (snd screen) ;;
  let s := insert "width" (JInt (width screenSize)) s in
  let s := insert "height" (JInt (height screenSize)) s in
  let size : QJsonObject := [] in
  let size := insert "width" (JInt (width screenSize)) size in
  let size := insert "height" (JInt (height screenSize)) size in
  let s := insert "size" (JObject size) s in
  screenPhysicalSize <- QScreen_physicalSize (snd screen) ;;
  let physicalSize : QJsonObject := [] in
  let physicalSize :=
    insert "width" (JInt (int_of_qreal (fwidth screenPhysicalSize))) physicalSize in
  let physicalSize :=
    insert "height" (JInt (int_of_qreal (fheight screenPhysicalSize))) physicalSize in
  let s := insert "physicalSize" (JObject size) s in
  ret s.

(** [for (auto &&screen : screens) { ...; arr.push_back(s); }] *)
Fixpoint screen_loop (currentScreen primaryScreen : ptr)
    (screens : list (ptr * QScreen)) (arr : QJsonArray) : Bridge QJsonArray :=
  match screens with
  | [] => ret arr
  | screen :: rest =>
      s <- screen_object currentScreen primaryScreen screen ;;
      screen_loop currentScreen primaryScreen rest (push_back (JObject s) arr)
  end.

(** The closure of [Application_get_screens] up to the array it builds.
    [QScreen *currentScreen;] is declared without an initializer and is
    assigned only when a widget has focus: otherwise it still holds
    [residue], whatever its stack slot contained. *)
Definition screens_array (residue : ptr) : Bridge QJsonArray :=
  screens <- QApplication_screens ;;
  primaryScreen <- QApplication_primaryScreen ;;
  focusedWidget <- QApplication_focusWidget ;;
  currentScreen <-
    (if N.eqb focusedWidget nullptr then ret residue
     else QWidget_window_screen focusedWidget) ;;
  screen_loop currentScreen primaryScreen screens [].

(** The closure: [return QJsonDocument(arr).toJson(QJsonDocument::Compact);]
    converted to the closure's result type [QString]. *)
Definition screens_json (residue : ptr) : Bridge QString :=
  arr <- screens_array residue ;;
  ret (fromUtf8 (toJson (JArray arr))).

(** [char *Application_get_screens(void *app_ptr)].  The result is
    [res.toLocal8Bit().data()]: the address of the bytes of a temporary
    QByteArray, which C++ destroys at the end of the return statement,
    before the caller receives the pointer. *)
Definition Application_get_screens (residue : ptr) (app_ptr : ptr) : Bridge ptr :=
  res <- runOnAppThread app_ptr (screens_json residue) ;;
  qInfo "Screens" res ;;
  tmp <- new (OByteArray (toLocal8Bit res)) ;;
  let data := tmp in
  destroy tmp ;;
  ret data.

(** What [screen_object] is expected to build for the screen at address
    [p], written out member by member in key order. *)
Definition screen_value (currentScreen primaryScreen : ptr)
    (screen : ptr * QScreen) : QJsonObject :=
  let w := JInt (width (screen_size (snd screen))) in
  let h := JInt (height (screen_size (snd screen))) in
  [ ("height", h);
    ("isCurrent", JBool (N.eqb currentScreen (fst screen)));
    ("isPrimary", JBool (N.eqb primaryScreen (fst screen)));
    ("physicalSize", JObject [("height", h); ("width", w)]);
    ("size", JObject [("height", h); ("width", w)]);
    ("width", w) ].

(** What the comparisons of the loop read from [currentScreen]. *)
Definition current_screen (residue : ptr) (a : QApplication) : ptr :=
  if N.eqb (focusWidget a) nullptr then residue
  else screen_of a (focusWidget a).

(** The toolkit calls [screens_array] makes, in order. *)
Definition screens_array_calls (a : QApplication) : list string :=
  (["QGuiApplication::screens"; "QGuiApplication::primaryScreen";
    "QApplication::focusWidget"]
   ++ (if N.eqb (focusWidget a) nullptr then []
       else ["QWidget::window"; "QWidget::windowHandle"; "QWindow::screen"])
   ++ concat (map (fun _ => ["QScreen::size"; "QScreen::physicalSize"])
                  (screens a)))%list.

(** The toolkit with the physical size of every screen replaced by what
    [f] gives for it; all else, the pixel sizes included, as in [t]. *)
Definition with_physicalSizes (f : ptr * QScreen -> QSizeF) (t : toolkit) : toolkit :=
  set_app
    {| screens :=
         map (fun s => (fst s, {| screen_size := screen_size (snd s);
                                  screen_physicalSize := f s |}))
             (screens (app t));
       primaryScreen := primaryScreen (app t);
       focusWidget := focusWidget (app t);
       screen_of := screen_of (app t);
       quit_requested := quit_requested (app t) |} t.

(** *** Window *)

Definition Window_new (app_ptr : ptr) (start_url : string) : Bridge ptr :=
  runOnAppThread app_ptr
    (w <- QWidget_new ;;
     QWidget_resize w 800 600 ;;
     QWidget_setMinimumSize w 320 240 ;;
     layout <- QVBoxLayout_new w ;;
     QLayout_setContentsMargins layout 0 0 0 0 ;;
     QLayout_setSpacing layout 0 ;;
     view <- QWebEngineView_new w ;;
     QLayout_addWidget layout view ;;
     QWebEngineView_load view (mk_QUrl (fromUtf8 start_url)) ;;
     QWidget_show w ;;
     new (OWindow {| window := w; window_layout := layout;
                     web_engine_view := view |})).

Definition Window_set_title (win_ptr : ptr) (title : string) : Bridge unit :=
  let win := win_ptr in
  let qtitle := fromUtf8 title in
  runOnAppThread win (QWidget_setWindowTitle win qtitle).

Definition Window_set_minimum_size (win_ptr : ptr) (width height : Z) : Bridge unit :=
  let win := win_ptr in
  runOnAppThread win (QWidget_setMinimumSize win width height).

Definition Window_resize (win_ptr : ptr) (width height : Z) : Bridge unit :=
  let win := win_ptr in
  runOnAppThread win (QWidget_resize win width height).

Definition Window_hide (win_ptr : ptr) : Bridge unit :=
  let win := win_ptr in
  runOnAppThread win (QWidget_showMinimized win).

Definition Window_show (win_ptr : ptr) : Bridge unit :=
  let win := win_ptr in
  runOnAppThread win (QWidget_showNormal win).

Definition Window_fullscreen (win_ptr : ptr) : Bridge unit :=
  let win := win_ptr in
  runOnAppThread win
    (st <- QWidget_windowState win ;;
     QWidget_setWindowState win (Z.lxor st WindowFullScreen)).

Definition Window_maximize (win_ptr : ptr) : Bridge unit :=
  let win := win_ptr in
  runOnAppThread win
    (st <- QWidget_windowState win ;;
     QWidget_setWindowState win (Z.lxor st WindowMaximized)).

Definition Window_close (win_ptr : ptr) : Bridge unit :=
  let win := win_ptr in
  runOnAppThread win (QWidget_close win).

(** *** WebEngineView *)

Definition WebEngineView_load_url (web_engine_ptr : ptr) (url : string) : Bridge unit :=
  let eng := web_engine_ptr in
  runOnAppThread eng (QWebEngineView_load eng (mk_QUrl (fromUtf8 url))).

Definition WebEngineView_reload (web_engine_ptr : ptr) : Bridge unit :=
  let eng := web_engine_ptr in
  runOnAppThread eng (QWebEngineView_reload eng).

Definition WebEngineView_run_js (web_engine_ptr : ptr) (script : string) : Bridge unit :=
  let eng := web_engine_ptr in
  let qScript := fromUtf8 script in
  runOnAppThread eng (QWebEnginePage_runJavaScript eng qScript).

(** *** The exposed operations, as one type *)

Inductive operation :=
| Do_Application_quit (app_ptr : ptr)
| Do_Application_get_screens (residue : ptr) (app_ptr : ptr)
| Do_Window_new (app_ptr : ptr) (start_url : string)
| Do_Window_set_title (win_ptr : ptr) (title : string)
| Do_Window_set_minimum_size (win_ptr : ptr) (width height : Z)
| Do_Window_resize (win_ptr : ptr) (width height : Z)
| Do_Window_hide (win_ptr : ptr)
| Do_Window_show (win_ptr : ptr)
| Do_Window_fullscreen (win_ptr : ptr)
| Do_Window_maximize (win_ptr : ptr)
| Do_Window_close (win_ptr : ptr)
| Do_WebEngineView_load_url (web_engine_ptr : ptr) (url : string)
| Do_WebEngineView_reload (web_engine_ptr : ptr)
| Do_WebEngineView_run_js (web_engine_ptr : ptr) (script : string).

Definition discard {A} (m : Bridge A) : Bridge unit := _ <- m ;; ret tt.

Definition perform (op : operation) : Bridge unit :=
  match op with
  | Do_Application_quit a => Application_quit a
  | Do_Application_get_screens r a => discard (Application_get_screens r a)
  | Do_Window_new a u => discard (Window_new a u)
  | Do_Window_set_title w s => Window_set_title w s
  | Do_Window_set_minimum_size w x y => Window_set_minimum_size w x y
  | Do_Window_resize w x y => Window_resize w x y
  | Do_Window_hide w => Window_hide w
  | Do_Window_show w => Window_show w
  | Do_Window_fullscreen w => Window_fullscreen w
  | Do_Window_maximize w => Window_maximize w
  | Do_Window_close w => Window_close w
  | Do_WebEngineView_load_url e u => WebEngineView_load_url e u
  | Do_WebEngineView_reload e => WebEngineView_reload e
  | Do_WebEngineView_run_js e s => WebEngineView_run_js e s
  end.

(** *** What the operations on a handle expect and do

    The address an operation receives as [win_ptr] or [web_engine_ptr]. *)
Definition handle_of (op : operation) : option ptr :=
  match op with
  | Do_Application_quit _ | Do_Application_get_screens _ _ | Do_Window_new _ _ => None
  | Do_Window_set_title w _ | Do_Window_set_minimum_size w _ _ | Do_Window_resize w _ _
  | Do_Window_hide w | Do_Window_show w | Do_Window_fullscreen w | Do_Window_maximize w
  | Do_Window_close w => Some w
  | Do_WebEngineView_load_url e _ | Do_WebEngineView_reload e
  | Do_WebEngineView_run_js e _ => Some e
  end.

(** The classes of the objects in the store. *)
Inductive class := Widget | Layout | View | WindowRecord | ByteArray.

Definition class_of (o : object) : class :=
  match o with
  | OWidget _ => Widget
  | OLayout _ => Layout
  | OView _ => View
  | OWindow _ => WindowRecord
  | OByteArray _ => ByteArray
  end.

(** The class an operation casts its handle to with [static_cast]. *)
Definition expected_class (op : operation) : option class :=
  match op with
  | Do_Application_quit _ | Do_Application_get_screens _ _ | Do_Window_new _ _ => None
  | Do_Window_set_title _ _ | Do_Window_set_minimum_size _ _ _ | Do_Window_resize _ _ _
  | Do_Window_hide _ | Do_Window_show _ | Do_Window_fullscreen _ | Do_Window_maximize _
  | Do_Window_close _ => Some Widget
  | Do_WebEngineView_load_url _ _ | Do_WebEngineView_reload _
  | Do_WebEngineView_run_js _ _ => Some View
  end.

(** The object an operation leaves at its handle when it finds [o] there;
    nothing when [o] is not of the class the operation casts to. *)
Definition effect (op : operation) (o : object) : option object :=
  match op, o with
  | Do_Window_set_title _ title, OWidget w =>
      Some (OWidget (set_windowTitle (fromUtf8 title) w))
  | Do_Window_set_minimum_size _ minw minh, OWidget w =>
      let mw := Z.max 0 (Z.min minw QWIDGETSIZE_MAX) in
      let mh := Z.max 0 (Z.min minh QWIDGETSIZE_MAX) in
      let w' := set_minimumSize (mk_QSize mw mh) w in
      Some (OWidget
        (set_size (mk_QSize (Z.max mw (width (size w'))) (Z.max mh (height (size w')))) w'))
  | Do_Window_resize _ wd ht, OWidget w =>
      Some (OWidget (set_size (constrained w (mk_QSize wd ht)) w))
  | Do_Window_hide _, OWidget w =>
      Some (OWidget
        (set_visible true
           (set_windowState
              (Z.lor (Z.land (windowState w) (Z.lnot WindowActive)) WindowMinimized) w)))
  | Do_Window_show _, OWidget w =>
      Some (OWidget
        (set_visible true
           (set_windowState
              (Z.land (windowState w)
                 (Z.lnot (Z.lor WindowMinimized (Z.lor WindowMaximized WindowFullScreen))))
              w)))
  | Do_Window_fullscreen _, OWidget w =>
      Some (OWidget (set_windowState (Z.lxor (windowState w) WindowFullScreen) w))
  | Do_Window_maximize _, OWidget w =>
      Some (OWidget (set_windowState (Z.lxor (windowState w) WindowMaximized) w))
  | Do_Window_close _, OWidget w =>
      Some (OWidget (set_visible false w))
  | Do_WebEngineView_load_url _ url, OView v =>
      Some (OView {| view_parent := view_parent v;
                     loading := Some (mk_QUrl (fromUtf8 url));
                     reloads := reloads v; scripts := scripts v |})
  | Do_WebEngineView_reload _, OView v =>
      Some (OView {| view_parent := view_parent v; loading := loading v;
                     reloads := N.succ (reloads v); scripts := scripts v |})
  | Do_WebEngineView_run_js _ script, OView v =>
      Some (OView {| view_parent := view_parent v; loading := loading v;
                     reloads := reloads v;
                     scripts := (scripts v ++ [fromUtf8 script])%list |})
  | _, _ => None
  end.

(** A widget is not smaller than its minimum size. *)
Definition sized (o : object) : Prop :=
  match o with
  | OWidget w =>
      width (minimumSize w) <= width (size w) /\
      height (minimumSize w) <= height (size w)
  | _ => True
  end.

Definition is_quit (op : operation) : bool :=
  match op with Do_Application_quit _ => true | _ => false end.

Definition is_Window_new (op : operation) : bool :=
  match op with Do_Window_new _ _ => true | _ => false end.

Definition is_close (op : operation) : bool :=
  match op with Do_Window_close _ => true | _ => false end.

(** The application after an operation on a handle that left the store
    [h]: asked to quit when the operation closed the last visible window. *)
Definition app_after (op : operation) (h : gmap N object) (a : QApplication)
  : QApplication :=
  if is_close op && no_window_visible h then request_quit a else a.

End WithText.

End Bridge.

(* ===================================================================== *)
(** ** lib.hpp against lib.cpp: declarations and definitions             *)
(* ===================================================================== *)

Module Header.

(** A function declaration of lib.hpp.  [imported] marks a declaration
    with the [extern] specifier: a function the bridge calls and the host
    provides. *)
Record declaration := mk_declaration {
  name     : string;
  imported : bool;
}.

(** The declarations of lib.hpp, in order. *)
Definition lib_hpp : list declaration :=
  [ mk_declaration "appExited" true;
    mk_declaration "Application_new" false;
    mk_declaration "Application_exec" false;
    mk_declaration "Application_quit" false;
    mk_declaration "Application_get_screens" false;
    mk_declaration "Window_new" false;
    mk_declaration "Window_set_title" false;
    mk_declaration "Window_resize" false;
    mk_declaration "Window_set_minimum_size" false;
    mk_declaration "Window_hide" false;
    mk_declaration "Window_show" false;
    mk_declaration "Window_fullscreen" false;
    mk_declaration "Window_maximize" false;
    mk_declaration "Window_close" false;
    mk_declaration "WebEngineView_load_url" false;
    mk_declaration "WebEngineView_reload" false;
    mk_declaration "WebEngineView_run_js" false;
    mk_declaration "fix_signal" false;
    mk_declaration "install_signal_handlers" false;
    mk_declaration "bye" false ].

(** The functions lib.cpp defines, in order. *)
Definition lib_cpp : list string :=
  [ "Application_new"; "Application_quit"; "Application_get_screens";
    "Window_new"; "Window_set_title"; "Window_set_minimum_size";
    "Window_resize"; "Window_hide"; "Window_show"; "Window_fullscreen";
    "Window_maximize"; "Window_close";
    "WebEngineView_load_url"; "WebEngineView_reload"; "WebEngineView_run_js";
    "fix_signal"; "install_signal_handlers"; "bye" ].

Definition defined (f : string) : bool := existsb (String.eqb f) lib_cpp.

(** The functions the header offers to the host. *)
Definition offered : list string :=
  map name (List.filter (fun d => negb (imported d)) lib_hpp).

(** The offered functions without a definition. *)
Definition missing : list string := List.filter (fun f => negb (defined f)) offered.

End Header.

(* ===================================================================== *)
(** * Properties                                                         *)
(* ===================================================================== *)

Section SignalProperties.
Import Posix.

Lemma query_inv signum p :
  query signum p =
    match dispositions p !! signum with
    | Some old => (0, Some old, p)
    | None => (-1, None, set_errno EINVAL p)
    end.
Proof. unfold query, sigaction. destruct (dispositions p !! signum); reflexivity. Qed.

Lemma both_succeed_iff signum p :
  both_succeed signum p <->
  is_Some (dispositions p !! signum) /\ uncatchable signum = false.
Proof.
  unfold both_succeed. rewrite query_inv.
  destruct (dispositions p !! signum) as [old|] eqn:E; cbn.
  - unfold sigaction. rewrite E. split.
    + intros (st & _ & [= <-] & H). split; [eauto|].
      destruct (uncatchable signum); cbn in H; [lia | reflexivity].
    + intros [_ U]. exists old. rewrite U. cbn. repeat split; lia.
  - split.
    + intros (st & H & _). lia.
    + intros [[x Hx] _]. discriminate.
Qed.

Lemma fails_iff signum p :
  query_fails signum p \/ install_fails signum p <-> ~ both_succeed signum p.
Proof.
  rewrite both_succeed_iff. unfold query_fails, install_fails.
  rewrite query_inv.
  destruct (dispositions p !! signum) as [old|] eqn:E; cbn.
  - unfold sigaction. rewrite E.
    destruct (uncatchable signum) eqn:U; cbn; split.
    + intros _ [_ ?]. discriminate.
    + intros _. right. exists old. repeat split; lia.
    + intros [H | (st & _ & _ & H)] _; lia.
    + intros H. exfalso. apply H. split; [eauto | reflexivity].
  - split.
    + intros _ [[x Hx] _]. discriminate.
    + intros _. left. lia.
Qed.

Lemma fix_signal_success signum p old :
  dispositions p !! signum = Some old ->
  uncatchable signum = false ->
  fix_signal signum p = set_disposition signum (fixed (libc_restorer p) old) p.
Proof.
  intros E U. unfold fix_signal, sigaction. rewrite E. cbn [Z.ltb Z.compare].
  cbv iota. rewrite E, U. reflexivity.
Qed.

Lemma SA_ONSTACK_pow2 : SA_ONSTACK = 2 ^ SA_ONSTACK_bit.
Proof. reflexivity. Qed.

Lemma SA_RESTORER_pow2 : SA_RESTORER = 2 ^ SA_RESTORER_bit.
Proof. reflexivity. Qed.

Lemma or_onstack_bits st i :
  Z.testbit (sa_flags (or_onstack st)) i =
    if Z.eqb i SA_ONSTACK_bit then true else Z.testbit (sa_flags st) i.
Proof.
  cbn [or_onstack sa_flags]. rewrite Z.lor_spec, SA_ONSTACK_pow2.
  rewrite Z.pow2_bits_eqb by (unfold SA_ONSTACK_bit; lia).
  rewrite (Z.eqb_sym SA_ONSTACK_bit i).
  destruct (Z.eqb i SA_ONSTACK_bit); [apply orb_true_r | apply orb_false_r].
Qed.

Lemma fixed_bits r st i :
  Z.testbit (sa_flags (fixed r st)) i =
    if Z.eqb i SA_ONSTACK_bit then true
    else if Z.eqb i SA_RESTORER_bit then true
    else Z.testbit (sa_flags st) i.
Proof.
  unfold fixed, kernel_action. cbn [sa_flags].
  rewrite Z.lor_spec, or_onstack_bits, SA_RESTORER_pow2.
  rewrite Z.pow2_bits_eqb by (unfold SA_RESTORER_bit; lia).
  rewrite (Z.eqb_sym SA_RESTORER_bit i).
  destruct (Z.eqb i SA_ONSTACK_bit), (Z.eqb i SA_RESTORER_bit),
           (Z.testbit (sa_flags st) i); reflexivity.
Qed.

(** A disposition that was installed through the C library already carries
    SA_RESTORER and the library's trampoline: for it, what [fix_signal]
    leaves is exactly the old disposition with SA_ONSTACK added. *)
Lemma fixed_of_installed r st :
  Z.testbit (sa_flags st) SA_RESTORER_bit = true ->
  sa_restorer st = r ->
  fixed r st = or_onstack st.
Proof.
  intros Hb Hr. destruct st as [h m f rs]. cbn [sa_flags sa_restorer] in Hb, Hr. subst rs.
  unfold fixed, kernel_action, or_onstack. cbn [sa_handler sa_mask sa_flags sa_restorer].
  f_equal. apply Z.bits_inj'. intros i Hi.
  rewrite !Z.lor_spec, SA_RESTORER_pow2, SA_ONSTACK_pow2.
  rewrite !Z.pow2_bits_eqb by (unfold SA_RESTORER_bit, SA_ONSTACK_bit; lia).
  destruct (Z.eqb_spec SA_RESTORER_bit i) as [<- |]; [| by rewrite orb_false_r].
  rewrite Hb. reflexivity.
Qed.

(** C7 (as amended).  When both [sigaction] calls of [fix_signal signum]
    succeed, the disposition of [signum] afterwards has the handler and the
    mask of the one before, and its flags are the old flags with SA_ONSTACK
    and SA_RESTORER or-ed in: both bits are set and every other flag bit is
    as it was.  The restorer is the trampoline of the C library, which the
    library's [sigaction] installs together with SA_RESTORER on every
    installing call.  So the new disposition is exactly the old one with
    SA_ONSTACK added when the old one had been installed through the C
    library.  Nothing is written to stderr and no other signal is
    touched. *)
Theorem fix_signal_adds_onstack signum p :
  both_succeed signum p ->
  exists old new,
    dispositions p !! signum = Some old /\
    dispositions (fix_signal signum p) !! signum = Some new /\
    sa_handler new = sa_handler old /\
    sa_mask new = sa_mask old /\
    sa_flags new = Z.lor (Z.lor (sa_flags old) SA_ONSTACK) SA_RESTORER /\
    sa_restorer new = libc_restorer p /\
    Z.testbit (sa_flags new) SA_ONSTACK_bit = true /\
    Z.testbit (sa_flags new) SA_RESTORER_bit = true /\
    (forall i, i <> SA_ONSTACK_bit -> i <> SA_RESTORER_bit ->
       Z.testbit (sa_flags new) i = Z.testbit (sa_flags old) i) /\
    (Z.testbit (sa_flags old) SA_RESTORER_bit = true ->
     sa_restorer old = libc_restorer p ->
     new = or_onstack old) /\
    (forall other, other <> signum ->
       dispositions (fix_signal signum p) !! other = dispositions p !! other) /\
    stderr (fix_signal signum p) = stderr p.
Proof.
  intros H. apply both_succeed_iff in H as [[old E] U].
  exists old, (fixed (libc_restorer p) old).
  rewrite (fix_signal_success signum p old E U).
  split; [exact E |].
  split; [apply lookup_insert_eq |].
  split; [reflexivity |].
  split; [reflexivity |].
  split; [reflexivity |].
  split; [reflexivity |].
  split; [rewrite fixed_bits; reflexivity |].
  split; [rewrite fixed_bits; reflexivity |].
  split.
  { intros i Hi Hj. rewrite fixed_bits.
    destruct (Z.eqb_spec i SA_ONSTACK_bit); [contradiction |].
    destruct (Z.eqb_spec i SA_RESTORER_bit); [contradiction | reflexivity]. }
  split; [apply fixed_of_installed |].
  split; [| reflexivity].
  intros other Ho. apply lookup_insert_ne. congruence.
Qed.

Lemma fix_signal_adds_onstack_witness :
  let p := mk_process {[ SIGINT := mk_sigaction 4096 0 0x10000004 0 ]} 0 [] 5034608 in
  both_succeed SIGINT p /\
  dispositions (fix_signal SIGINT p) !! SIGINT
    = Some (mk_sigaction 4096 0 0x1c000004 5034608).
Proof.
  assert (B : both_succeed SIGINT
                (mk_process {[ SIGINT := mk_sigaction 4096 0 0x10000004 0 ]} 0 [] 5034608)).
  { apply both_succeed_iff. split; [eexists; reflexivity | reflexivity]. }
  split; [exact B |].
  destruct (fix_signal_adds_onstack _ _ B)
    as (old & new & Ho & Hn & Hh & Hm & Hf & Hr & _).
  rewrite Hn. vm_compute in Ho. injection Ho as <-.
  destruct new as [h m f r]. cbn in Hh, Hm, Hf, Hr. subst. reflexivity.
Defined.

(** C7 as first stated fails: for a disposition that was not installed
    through the C library (flags SA_RESTART | SA_SIGINFO, no restorer),
    both calls succeed, yet the new disposition is not the old one with
    SA_ONSTACK added: the SA_RESTORER flag, which is not SA_ONSTACK, and the
    restorer have changed as well. *)
Lemma fix_signal_changes_more_than_onstack :
  let p := mk_process {[ SIGINT := mk_sigaction 4096 0 0x10000004 0 ]} 0 [] 5034608 in
  both_succeed SIGINT p /\
  exists old new,
    dispositions p !! SIGINT = Some old /\
    dispositions (fix_signal SIGINT p) !! SIGINT = Some new /\
    new <> or_onstack old /\
    SA_RESTORER_bit <> SA_ONSTACK_bit /\
    Z.testbit (sa_flags new) SA_RESTORER_bit <> Z.testbit (sa_flags old) SA_RESTORER_bit /\
    sa_restorer new <> sa_restorer old.
Proof.
  cbv zeta. split.
  { apply both_succeed_iff. split; [eexists; reflexivity | reflexivity]. }
  exists (mk_sigaction 4096 0 0x10000004 0), (mk_sigaction 4096 0 0x1c000004 5034608).
  split; [reflexivity |]. split; [reflexivity |].
  repeat split; discriminate.
Qed.

(** C8.  When one of the two [sigaction] calls of [fix_signal signum]
    fails, [fix_signal] leaves the disposition of every signal as it was
    and appends one line to stderr: the text of the source's format string
    with the signal number in decimal and the message of the error the
    failed call left in [errno], EINVAL. *)
Theorem fix_signal_failure_changes_nothing signum p :
  query_fails signum p \/ install_fails signum p ->
  dispositions (fix_signal signum p) = dispositions p /\
  errno (fix_signal signum p) = EINVAL /\
  stderr (fix_signal signum p) =
    (stderr p ++
     ["error fixing handler for signal " +:+ decimal signum
      +:+ ", please report this issue to https://github.com/wailsapp/wails: "
      +:+ "Invalid argument" +:+ String "010"%char EmptyString])%list.
Proof.
  rewrite fails_iff, both_succeed_iff.
  unfold fix_signal, sigaction.
  destruct (dispositions p !! signum) as [old|] eqn:E; cbn.
  - rewrite E. destruct (uncatchable signum) eqn:U; cbn.
    + intros _. repeat split; reflexivity.
    + intros H. exfalso. apply H. split; [eauto | reflexivity].
  - intros _. repeat split; reflexivity.
Qed.

Lemma fix_signal_failure_changes_nothing_witness :
  let p := mk_process {[ SIGKILL := mk_sigaction 0 0 0 0 ]} 0 [] 5034608 in
  install_fails SIGKILL p /\
  dispositions (fix_signal SIGKILL p) = dispositions p /\
  stderr (fix_signal SIGKILL p) =
    ["error fixing handler for signal 9, please report this issue to "
     +:+ "https://github.com/wailsapp/wails: Invalid argument"
     +:+ String "010"%char EmptyString].
Proof.
  assert (F : install_fails SIGKILL
                (mk_process {[ SIGKILL := mk_sigaction 0 0 0 0 ]} 0 [] 5034608)).
  { exists (mk_sigaction 0 0 0 0). vm_compute. repeat split; congruence. }
  split; [exact F |].
  destruct (fix_signal_failure_changes_nothing _ _ (or_intror F)) as (Hd & _ & Hs).
  split; [exact Hd | exact Hs].
Defined.

End SignalProperties.

(** ** Which thread the toolkit is called on *)

Section Threads.
Import Qt Bridge.
Local Open Scope bridge_scope.

Context {A B : Type} (Q : thread -> thread -> Prop).

Lemma emits_ret (x : A) : emits Q (ret x).
Proof.
  intros th t y t' [= <- <-]. exists []. split; [by rewrite app_nil_r | constructor].
Qed.

Lemma emits_undefined : emits Q (@undefined A).
Proof. intros th t y t' [=]. Qed.

Lemma emits_bind (m : Bridge A) (k : A -> Bridge B) :
  emits Q m -> (forall x, emits Q (k x)) -> emits Q (bind m k).
Proof.
  intros Hm Hk th t y t'. unfold bind.
  destruct (m th t) as [[x t1]|] eqn:E; [| discriminate].
  intros Hr. destruct (Hm _ _ _ _ E) as (cs1 & E1 & F1).
  destruct (Hk x _ _ _ _ Hr) as (cs2 & E2 & F2).
  exists (cs1 ++ cs2)%list. rewrite E2, E1.
  split; [by rewrite app_assoc | by apply Forall_app].
Qed.

Lemma emits_silent (m : Bridge A) :
  (forall th t x t', m th t = Some (x, t') -> calls t' = calls t) -> emits Q m.
Proof.
  intros H th t x t' E. exists []. rewrite (H _ _ _ _ E).
  split; [by rewrite app_nil_r | constructor].
Qed.


End Threads.

Section ThreadsOfTheToolkit.
Import Qt Bridge.
Local Open Scope bridge_scope.

Lemma emits_get Q : emits Q get.
Proof. apply emits_silent. by intros th t x t' [= <- <-]. Qed.

Lemma emits_modify Q f :
  (forall t, calls (f t) = calls t) -> emits Q (modify f).
Proof. intros H. apply emits_silent. intros th t x t' [= <- <-]. apply H. Qed.

Lemma emits_new Q o : emits Q (new o).
Proof. apply emits_silent. by intros th t x t' [= <- <-]. Qed.

Lemma emits_destroy Q p : emits Q (destroy p).
Proof. by apply emits_modify. Qed.

Lemma emits_store Q p o : emits Q (store p o).
Proof. by apply emits_modify. Qed.

Lemma emits_qInfo Q tag s : emits Q (qInfo tag s).
Proof. by apply emits_modify. Qed.

Lemma emits_the_widget Q p : emits Q (the_widget p).
Proof.
  apply emits_bind; [apply emits_get |]. intros t.
  destruct (heap t !! p) as [[]|]; first [apply emits_ret | apply emits_undefined].
Qed.

Lemma emits_the_layout Q p : emits Q (the_layout p).
Proof.
  apply emits_bind; [apply emits_get |]. intros t.
  destruct (heap t !! p) as [[]|]; first [apply emits_ret | apply emits_undefined].
Qed.

Lemma emits_the_view Q p : emits Q (the_view p).
Proof.
  apply emits_bind; [apply emits_get |]. intros t.
  destruct (heap t !! p) as [[]|]; first [apply emits_ret | apply emits_undefined].
Qed.

Lemma emits_quit_if_last_window_closed Q : emits Q quit_if_last_window_closed.
Proof.
  apply emits_bind; [apply emits_get |]. intros t.
  destruct (no_window_visible (heap t)); [by apply emits_modify | apply emits_ret].
Qed.

(** A toolkit call is made on the thread that runs it. *)
Lemma emits_toolkit_call name : emits on_caller (toolkit_call name).
Proof.
  intros th t x t' [= <- <-]. exists [(th, name)]. split; [reflexivity |].
  by repeat constructor.
Qed.




End ThreadsOfTheToolkit.

Create HintDb threads.
#[local] Hint Resolve emits_ret emits_undefined emits_get emits_new emits_destroy
  emits_store emits_qInfo emits_the_widget emits_the_layout emits_the_view
  emits_quit_if_last_window_closed
  emits_toolkit_call : threads.



Ltac unfold_toolkit :=
  unfold Qt.QWidget_new, Qt.QWidget_resize, Qt.QWidget_setMinimumSize, Qt.QWidget_show,
    Qt.QWidget_setWindowTitle, Qt.QWidget_windowState, Qt.QWidget_setWindowState,
    Qt.QWidget_showMinimized, Qt.QWidget_showNormal, Qt.QWidget_close,
    Qt.QVBoxLayout_new, Qt.QLayout_setContentsMargins, Qt.QLayout_setSpacing,
    Qt.QLayout_addWidget, Qt.QWebEngineView_new, Qt.QWebEngineView_load,
    Qt.QWebEngineView_reload, Qt.QWebEnginePage_runJavaScript,
    Qt.QApplication_quit, Qt.QApplication_screens, Qt.QApplication_primaryScreen,
    Qt.QApplication_focusWidget, Qt.QWidget_window_screen, Qt.QScreen_size,
    Qt.QScreen_physicalSize.

Section ThreadsOfTheBridge.
Import Qt Bridge.
Local Open Scope bridge_scope.
Context {text : QtText}.







End ThreadsOfTheBridge.

(** ** Running the toolkit methods on a live object *)

Ltac run_method H :=
  unfold_toolkit;
  cbv beta iota zeta delta [Qt.bind Qt.toolkit_call Qt.the_widget Qt.the_layout
    Qt.the_view Qt.get Qt.store Qt.modify Qt.ret];
  cbn [Qt.heap Qt.add_call Qt.set_heap Qt.app Qt.calls Qt.messages];
  rewrite H; reflexivity.

Section RunningMethods.
Import Qt Bridge.
Local Open Scope bridge_scope.

Lemma run_setWindowTitle p title w th t :
  heap t !! p = Some (OWidget w) ->
  QWidget_setWindowTitle p title th t =
    Some (tt, set_heap (<[p := OWidget (set_windowTitle title w)]> (heap t))
                (called th ["QWidget::setWindowTitle"] t)).
Proof. intros H. run_method H. Qed.

Lemma run_windowState p w th t :
  heap t !! p = Some (OWidget w) ->
  QWidget_windowState p th t =
    Some (windowState w, called th ["QWidget::windowState"] t).
Proof. intros H. run_method H. Qed.

Lemma run_setWindowState p st w th t :
  heap t !! p = Some (OWidget w) ->
  QWidget_setWindowState p st th t =
    Some (tt, set_heap (<[p := OWidget (set_windowState st w)]> (heap t))
                (called th ["QWidget::setWindowState"] t)).
Proof. intros H. run_method H. Qed.

(** The closure shared by [Window_fullscreen] and [Window_maximize]:
    [win->setWindowState(win->windowState() ^ flag)]. *)
Lemma run_toggle flag win w th t :
  heap t !! win = Some (OWidget w) ->
  runOnAppThread win
    (st <- QWidget_windowState win ;;
     QWidget_setWindowState win (Z.lxor st flag)) th t =
  Some (tt, set_heap
              (<[win := OWidget (set_windowState (Z.lxor (windowState w) flag) w)]> (heap t))
              (called AppThread ["QWidget::windowState"; "QWidget::setWindowState"] t)).
Proof.
  intros H. unfold runOnAppThread, bind.
  rewrite (run_windowState _ _ _ _ H).
  rewrite (run_setWindowState win _ w) by exact H.
  reflexivity.
Qed.

Lemma toggle_twice flag (w : QWidget) :
  set_windowState
    (Z.lxor (windowState (set_windowState (Z.lxor (windowState w) flag) w)) flag)
    (set_windowState (Z.lxor (windowState w) flag) w) = w.
Proof.
  destruct w as [sz mn mx ti st vi la]. unfold set_windowState. cbn.
  rewrite Z.lxor_assoc, Z.lxor_nilpotent, Z.lxor_0_r. reflexivity.
Qed.

Lemma toggle_bits st k i :
  0 <= k ->
  Z.testbit (Z.lxor st (2 ^ k)) i =
    if Z.eqb i k then negb (Z.testbit st i) else Z.testbit st i.
Proof.
  intros Hk. rewrite Z.lxor_spec, Z.pow2_bits_eqb by exact Hk.
  rewrite (Z.eqb_sym k i).
  destruct (Z.eqb i k), (Z.testbit st i); reflexivity.
Qed.

End RunningMethods.

Section WindowProperties.
Import Qt Bridge.
Local Open Scope bridge_scope.
Context {text : QtText}.


(** C9.  On a live window, [Window_set_title] returns, the title of the
    window afterwards is the text [QString::fromUtf8] decodes from the
    argument, and nothing else has changed: the size, minimum and maximum
    size, window state, visibility and layout of the window are as before,
    and so is every other object (the web view among them) and the
    application. *)
Theorem Window_set_title_changes_only_title (win : ptr) (title : string)
    (w : QWidget) (caller : thread) (t : toolkit) :
  heap t !! win = Some (OWidget w) ->
  exists t' w',
    Window_set_title win title caller t = Some (tt, t') /\
    heap t' !! win = Some (OWidget w') /\
    windowTitle w' = fromUtf8 title /\
    size w' = size w /\
    minimumSize w' = minimumSize w /\
    maximumSize w' = maximumSize w /\
    windowState w' = windowState w /\
    visible w' = visible w /\
    layout w' = layout w /\
    (forall p, p <> win -> heap t' !! p = heap t !! p) /\
    app t' = app t.
Proof.
  intros H. eexists _, (set_windowTitle (fromUtf8 title) w).
  split.
  { unfold Window_set_title, runOnAppThread.
    apply (run_setWindowTitle _ _ _ _ _ H). }
  cbn [heap set_heap app called fold_left add_call].
  split; [apply lookup_insert_eq |].
  do 7 (split; [reflexivity |]).
  split; [| reflexivity].
  intros p Hp. apply lookup_insert_ne. congruence.
Qed.

(** C10.  On a live window, [Window_fullscreen] exclusive-ors the window
    state with the full-screen flag: after one call the window state of the
    widget is the old state with that flag (bit 2) flipped and every other
    bit as it was, and nothing else of the widget has changed; a second
    call restores the store, so the window state, as it was.
    [Window_maximize] does the same with the maximized flag (bit 1). *)
Theorem window_state_toggles_are_involutions (win : ptr) (w : QWidget)
    (caller : thread) (t : toolkit) :
  heap t !! win = Some (OWidget w) ->
  (exists t1 t2 w1,
     Window_fullscreen win caller t = Some (tt, t1) /\
     heap t1 !! win = Some (OWidget w1) /\
     windowState w1 = Z.lxor (windowState w) WindowFullScreen /\
     (forall i, Z.testbit (windowState w1) i =
                if Z.eqb i 2 then negb (Z.testbit (windowState w) i)
                else Z.testbit (windowState w) i) /\
     size w1 = size w /\ minimumSize w1 = minimumSize w /\
     maximumSize w1 = maximumSize w /\ windowTitle w1 = windowTitle w /\
     visible w1 = visible w /\ layout w1 = layout w /\
     Window_fullscreen win caller t1 = Some (tt, t2) /\
     heap t2 = heap t /\ app t2 = app t) /\
  (exists t1 t2 w1,
     Window_maximize win caller t = Some (tt, t1) /\
     heap t1 !! win = Some (OWidget w1) /\
     windowState w1 = Z.lxor (windowState w) WindowMaximized /\
     (forall i, Z.testbit (windowState w1) i =
                if Z.eqb i 1 then negb (Z.testbit (windowState w) i)
                else Z.testbit (windowState w) i) /\
     size w1 = size w /\ minimumSize w1 = minimumSize w /\
     maximumSize w1 = maximumSize w /\ windowTitle w1 = windowTitle w /\
     visible w1 = visible w /\ layout w1 = layout w /\
     Window_maximize win caller t1 = Some (tt, t2) /\
     heap t2 = heap t /\ app t2 = app t).
Proof.
  intros H.
  assert (G : forall flag k, flag = 2 ^ k -> 0 <= k ->
    exists t1 t2 w1,
      runOnAppThread win
        (st <- QWidget_windowState win ;;
         QWidget_setWindowState win (Z.lxor st flag)) caller t = Some (tt, t1) /\
      heap t1 !! win = Some (OWidget w1) /\
      windowState w1 = Z.lxor (windowState w) flag /\
      (forall i, Z.testbit (windowState w1) i =
                 if Z.eqb i k then negb (Z.testbit (windowState w) i)
                 else Z.testbit (windowState w) i) /\
      size w1 = size w /\ minimumSize w1 = minimumSize w /\
      maximumSize w1 = maximumSize w /\ windowTitle w1 = windowTitle w /\
      visible w1 = visible w /\ layout w1 = layout w /\
      runOnAppThread win
        (st <- QWidget_windowState win ;;
         QWidget_setWindowState win (Z.lxor st flag)) caller t1 = Some (tt, t2) /\
      heap t2 = heap t /\ app t2 = app t).
  { intros flag k -> Hk.
    eexists _, _, (set_windowState (Z.lxor (windowState w) (2 ^ k)) w).
    split; [apply (run_toggle _ _ _ _ _ H) |].
    cbn [heap set_heap app called fold_left add_call].
    split; [apply lookup_insert_eq |].
    split; [reflexivity |].
    split; [intros i; apply toggle_bits; exact Hk |].
    do 6 (split; [reflexivity |]).
    split.
    { apply run_toggle. cbn [heap set_heap]. apply lookup_insert_eq. }
    cbn [heap set_heap app called fold_left add_call].
    split; [| reflexivity].
    rewrite insert_insert_eq, toggle_twice.
    apply insert_id. exact H. }
  split.
  - exact (G WindowFullScreen 2 eq_refl ltac:(lia)).
  - exact (G WindowMaximized 1 eq_refl ltac:(lia)).
Qed.

End WindowProperties.

Section WindowWitnesses.
Import Qt Bridge.


Lemma Window_set_title_changes_only_title_witness :
  one_window.(heap) !! 5%N
    = Some (OWidget (set_windowState WindowMaximized default_widget)) /\
  exists t' w',
    Window_set_title (text := ascii_text) 5%N "wails" HostThread one_window
      = Some (tt, t') /\
    heap t' !! 5%N = Some (OWidget w') /\
    windowTitle w' = [119; 97; 105; 108; 115]%N /\
    windowState w' = WindowMaximized.
Proof.
  split; [reflexivity |].
  destruct (Window_set_title_changes_only_title (text := ascii_text) 5%N "wails"
              (set_windowState WindowMaximized default_widget) HostThread one_window
              eq_refl)
    as (t' & w' & Hrun & Hw & Ht & _ & _ & _ & Hs & _).
  exists t', w'. split; [exact Hrun |]. split; [exact Hw |].
  split; [exact Ht | exact Hs].
Defined.

Lemma window_state_toggles_are_involutions_witness :
  (exists w, one_window.(heap) !! 5%N = Some (OWidget w) /\ windowState w = 2) /\
  exists t1 t2 w1,
    Window_fullscreen 5%N HostThread one_window = Some (tt, t1) /\
    heap t1 !! 5%N = Some (OWidget w1) /\
    windowState w1 = 6 /\
    Window_fullscreen 5%N HostThread t1 = Some (tt, t2) /\
    heap t2 = heap one_window.
Proof.
  split; [eexists; split; reflexivity |].
  destruct (window_state_toggles_are_involutions 5%N
              (set_windowState WindowMaximized default_widget) HostThread one_window
              eq_refl)
    as [(t1 & t2 & w1 & H1 & Hw & Hs & _ & _ & _ & _ & _ & _ & _ & H2 & Hh & _) _].
  exists t1, t2, w1. split; [exact H1 |]. split; [exact Hw |].
  split; [exact Hs |]. split; [exact H2 | exact Hh].
Defined.

End WindowWitnesses.

(** ** [Window_new] *)

Section WindowNew.
Import Qt Bridge.
Local Open Scope bridge_scope.
Context {text : QtText}.

Lemma fresh_addr_free (h : gmap N object) : h !! fresh_addr h = None.
Proof.
  apply not_elem_of_dom. intros H.
  apply (is_fresh ({[nullptr]} ∪ dom h : gset N)). apply elem_of_union_r, H.
Qed.

Lemma fresh_addr_not_null (h : gmap N object) : fresh_addr h <> nullptr.
Proof.
  intros H. apply (is_fresh ({[nullptr]} ∪ dom h : gset N)).
  apply elem_of_union_l, elem_of_singleton. exact H.
Qed.

Lemma fresh_addr_ne (h : gmap N object) p : is_Some (h !! p) -> fresh_addr h <> p.
Proof. intros [o Ho] E. rewrite <- E, fresh_addr_free in Ho. discriminate. Qed.

Lemma lookup_None_Some (h : gmap N object) p o :
  h !! p = None -> h !! p = Some o -> False.
Proof. intros H1 H2. rewrite H1 in H2. discriminate. Qed.

Lemma run_bind {A B} (m : Bridge A) (k : A -> Bridge B) th t x t1 :
  m th t = Some (x, t1) -> bind m k th t = k x th t1.
Proof. intros E. unfold bind. rewrite E. reflexivity. Qed.

Lemma run_QWidget_new th t :
  QWidget_new th t =
    Some (fresh_addr (heap t),
          set_heap (<[fresh_addr (heap t) := OWidget default_widget]> (heap t))
            (called th ["QWidget::QWidget"] t)).
Proof. reflexivity. Qed.

Lemma run_resize p wd ht w th t :
  heap t !! p = Some (OWidget w) ->
  QWidget_resize p wd ht th t =
    Some (tt, set_heap (<[p := OWidget (set_size (constrained w (mk_QSize wd ht)) w)]> (heap t))
                (called th ["QWidget::resize"] t)).
Proof. intros H. run_method H. Qed.

Lemma run_setMinimumSize p minw minh w th t :
  heap t !! p = Some (OWidget w) ->
  QWidget_setMinimumSize p minw minh th t =
    Some (tt,
      set_heap
        (<[p := OWidget
            (let mw := Z.max 0 (Z.min minw QWIDGETSIZE_MAX) in
             let mh := Z.max 0 (Z.min minh QWIDGETSIZE_MAX) in
             let w' := set_minimumSize (mk_QSize mw mh) w in
             set_size (mk_QSize (Z.max mw (width (size w'))) (Z.max mh (height (size w')))) w')]>
           (heap t))
        (called th ["QWidget::setMinimumSize"] t)).
Proof. intros H. run_method H. Qed.

Lemma run_show p w th t :
  heap t !! p = Some (OWidget w) ->
  QWidget_show p th t =
    Some (tt, set_heap (<[p := OWidget (set_visible true w)]> (heap t))
                (called th ["QWidget::show"] t)).
Proof. intros H. run_method H. Qed.

Lemma run_QVBoxLayout_new parent w th t :
  heap t !! parent = Some (OWidget w) ->
  QVBoxLayout_new parent th t =
    let l := fresh_addr (heap t) in
    Some (l, set_heap
               (<[parent := OWidget (set_layout l w)]>
                  (<[l := OLayout {| layout_parent := parent;
                                     contentsMargins := (-1, -1, -1, -1);
                                     spacing := -1; items := [] |}]> (heap t)))
               (called th ["QVBoxLayout::QVBoxLayout"] t)).
Proof. intros H. run_method H. Qed.

Lemma run_setContentsMargins p l t_ r b lay th t :
  heap t !! p = Some (OLayout lay) ->
  QLayout_setContentsMargins p l t_ r b th t =
    Some (tt, set_heap (<[p := OLayout {| layout_parent := layout_parent lay;
                                         contentsMargins := (l, t_, r, b);
                                         spacing := spacing lay;
                                         items := items lay |}]> (heap t))
                (called th ["QLayout::setContentsMargins"] t)).
Proof. intros H. run_method H. Qed.

Lemma run_setSpacing p s lay th t :
  heap t !! p = Some (OLayout lay) ->
  QLayout_setSpacing p s th t =
    Some (tt, set_heap (<[p := OLayout {| layout_parent := layout_parent lay;
                                         contentsMargins := contentsMargins lay;
                                         spacing := s;
                                         items := items lay |}]> (heap t))
                (called th ["QBoxLayout::setSpacing"] t)).
Proof. intros H. run_method H. Qed.

Lemma run_QWebEngineView_new parent w th t :
  heap t !! parent = Some (OWidget w) ->
  QWebEngineView_new parent th t =
    Some (fresh_addr (heap t),
          set_heap (<[fresh_addr (heap t) :=
                       OView {| view_parent := parent; loading := None;
                                reloads := 0%N; scripts := [] |}]> (heap t))
            (called th ["QWebEngineView::QWebEngineView"] t)).
Proof. intros H. run_method H. Qed.

Lemma run_addWidget p v lay view th t :
  heap t !! p = Some (OLayout lay) ->
  heap t !! v = Some (OView view) ->
  QLayout_addWidget p v th t =
    Some (tt, set_heap (<[p := OLayout {| layout_parent := layout_parent lay;
                                         contentsMargins := contentsMargins lay;
                                         spacing := spacing lay;
                                         items := (items lay ++ [v])%list |}]> (heap t))
                (called th ["QBoxLayout::addWidget"] t)).
Proof.
  intros H Hv. unfold_toolkit.
  cbv beta iota zeta delta [bind toolkit_call the_layout the_view get store modify ret].
  cbn [heap add_call set_heap]. rewrite H. cbv beta iota.
  cbn [heap add_call set_heap]. rewrite Hv. reflexivity.
Qed.

Lemma run_load p url v th t :
  heap t !! p = Some (OView v) ->
  QWebEngineView_load p url th t =
    Some (tt, set_heap (<[p := OView {| view_parent := view_parent v;
                                       loading := Some url;
                                       reloads := reloads v;
                                       scripts := scripts v |}]> (heap t))
                (called th ["QWebEngineView::load"] t)).
Proof. intros H. run_method H. Qed.



Ltac heap_now := cbn [heap set_heap called fold_left add_call app].
Ltac lookup_now := heap_now; simplify_map_eq; first [reflexivity | eauto].

(** C1.  Whatever the application pointer, the start URL and the calling
    thread, [Window_new] returns the address of a [Window] record whose
    three members point to live objects: [window] is a widget of size
    800x600 and minimum size 320x240 that is shown and has [window_layout]
    as its layout; the layout belongs to that widget, has zero margins and
    zero spacing and holds exactly [web_engine_view]; the view is a child
    of the widget and is loading [QUrl(start_url)].  Objects that existed
    before the call, and the application, are untouched. *)
Theorem Window_new_builds_window (app_ptr : ptr) (start_url : string)
    (caller : thread) (t : toolkit) :
  exists win t' W w l v,
    Window_new app_ptr start_url caller t = Some (win, t') /\
    heap t' !! win = Some (OWindow W) /\
    heap t' !! window W = Some (OWidget w) /\
    heap t' !! window_layout W = Some (OLayout l) /\
    heap t' !! web_engine_view W = Some (OView v) /\
    layout w = window_layout W /\
    layout_parent l = window W /\
    items l = [web_engine_view W] /\
    view_parent v = window W /\
    contentsMargins l = (0, 0, 0, 0) /\
    spacing l = 0 /\
    loading v = Some (mk_QUrl (fromUtf8 start_url)) /\
    size w = mk_QSize 800 600 /\
    minimumSize w = mk_QSize 320 240 /\
    visible w = true /\
    (forall p o, heap t !! p = Some o -> heap t' !! p = Some o) /\
    app t' = app t.
Proof.
  unfold Window_new, runOnAppThread.
  pose proof (fresh_addr_free (heap t)) as Fw.
  rewrite (run_bind _ _ _ _ _ _ (run_QWidget_new _ _)).
  remember (fresh_addr (heap t)) as pw eqn:Epw. clear Epw.
  erewrite run_bind by (eapply run_resize; lookup_now).
  erewrite run_bind by (eapply run_setMinimumSize; lookup_now).
  erewrite run_bind by (eapply run_QVBoxLayout_new; lookup_now).
  heap_now. cbv zeta.
  match goal with |- context [fresh_addr ?h] =>
    assert (Nl : fresh_addr h <> pw) by (apply fresh_addr_ne; simplify_map_eq; eauto);
    pose proof (fresh_addr_free h) as Fl;
    remember (fresh_addr h) as pl eqn:Epl; clear Epl
  end.
  erewrite run_bind by (eapply run_setContentsMargins; lookup_now).
  erewrite run_bind by (eapply run_setSpacing; lookup_now).
  erewrite run_bind by (eapply run_QWebEngineView_new; lookup_now).
  heap_now.
  match goal with |- context [fresh_addr ?h] =>
    assert (Nv : fresh_addr h <> pw) by (apply fresh_addr_ne; simplify_map_eq; eauto);
    assert (Nvl : fresh_addr h <> pl) by (apply fresh_addr_ne; simplify_map_eq; eauto);
    pose proof (fresh_addr_free h) as Fv;
    remember (fresh_addr h) as pv eqn:Epv; clear Epv
  end.
  erewrite run_bind by (eapply run_addWidget; lookup_now).
  erewrite run_bind by (eapply run_load; lookup_now).
  erewrite run_bind by (eapply run_show; lookup_now).
  unfold new. heap_now.
  match goal with |- context [fresh_addr ?h] =>
    assert (Nn : fresh_addr h <> pw) by (apply fresh_addr_ne; simplify_map_eq; eauto);
    assert (Nnl : fresh_addr h <> pl) by (apply fresh_addr_ne; simplify_map_eq; eauto);
    assert (Nnv : fresh_addr h <> pv) by (apply fresh_addr_ne; simplify_map_eq; eauto);
    pose proof (fresh_addr_free h) as Fn;
    remember (fresh_addr h) as pn eqn:Epn; clear Epn
  end.
  eexists _, _, _, _, _, _.
  split; [reflexivity |].
  heap_now. cbn [window window_layout web_engine_view].
  split; [apply lookup_insert_eq |].
  split; [simplify_map_eq; reflexivity |].
  split; [simplify_map_eq; reflexivity |].
  split; [simplify_map_eq; reflexivity |].
  do 10 (split; [reflexivity |]).
  split; [| reflexivity].
  intros p o Hp.
  assert (p <> pw) by (intros ->; exact (lookup_None_Some _ _ _ Fw Hp)).
  assert (p <> pl)
    by (intros ->; repeat (rewrite lookup_insert_ne in Fl by congruence);
        exact (lookup_None_Some _ _ _ Fl Hp)).
  assert (p <> pv)
    by (intros ->; repeat (rewrite lookup_insert_ne in Fv by congruence);
        exact (lookup_None_Some _ _ _ Fv Hp)).
  assert (p <> pn)
    by (intros ->; repeat (rewrite lookup_insert_ne in Fn by congruence);
        exact (lookup_None_Some _ _ _ Fn Hp)).
  simplify_map_eq. reflexivity.
Qed.
End WindowNew.
(** ** [Application_get_screens] *)

Section Screens.
Import Qt Json Bridge.
Local Open Scope bridge_scope.

Lemma called_app th (a b : list string) t :
  called th (a ++ b) t = called th b (called th a t).
Proof. unfold called. apply fold_left_app. Qed.

Lemma called_frame th names t :
  heap (called th names t) = heap t /\
  app (called th names t) = app t /\
  messages (called th names t) = messages t.
Proof.
  revert t. induction names as [| n rest IH]; intros t; [by repeat split |].
  cbn [called fold_left]. destruct (IH (add_call (th, n) t)) as (H1 & H2 & H3).
  unfold called in *. rewrite H1, H2, H3. by repeat split.
Qed.

Lemma run_screen_object cur prim screen th t :
  screen_object cur prim screen th t =
    Some (screen_value cur prim screen,
          called th ["QScreen::size"; "QScreen::physicalSize"] t).
Proof. reflexivity. Qed.

Lemma run_screen_loop cur prim screens arr th t :
  screen_loop cur prim screens arr th t =
    Some ((arr ++ map (fun s => JObject (screen_value cur prim s)) screens)%list,
          called th
            (concat (map (fun _ => ["QScreen::size"; "QScreen::physicalSize"]) screens)) t).
Proof.
  revert arr t. induction screens as [| screen rest IH]; intros arr t.
  - cbn. by rewrite app_nil_r.
  - cbn [screen_loop map concat].
    rewrite (run_bind _ _ _ _ _ _ (run_screen_object _ _ _ _ _)).
    rewrite IH. unfold push_back. rewrite <- app_assoc. cbn [app].
    rewrite called_app. reflexivity.
Qed.

(** The array the closure builds: one object per screen, in the order of
    [screens()]. *)
Lemma run_screens_array residue th t :
  screens_array residue th t =
    Some (map (fun s => JObject
                 (screen_value (current_screen residue (app t))
                               (primaryScreen (app t)) s))
              (screens (app t)),
          called th (screens_array_calls (app t)) t).
Proof.
  unfold screens_array, screens_array_calls, current_screen.
  unfold QApplication_screens, QApplication_primaryScreen, QApplication_focusWidget,
    QWidget_window_screen.
  cbv beta iota zeta delta [bind toolkit_call get ret].
  cbn [app add_call].
  destruct (N.eqb (focusWidget (app t)) nullptr);
    cbn [app add_call]; rewrite run_screen_loop; cbn [app add_call];
    rewrite !called_app; reflexivity.
Qed.

Section ScreensText.
Context {text : QtText}.

Lemma run_screens_json residue th t :
screens_json residue th t =
  Some (fromUtf8 (toJson (JArray
          (map (fun s => JObject
                  (screen_value (current_screen residue (app t))
                                (primaryScreen (app t)) s))
               (screens (app t))))),
        called th (screens_array_calls (app t)) t).
Proof.
unfold screens_json.
rewrite (run_bind _ _ _ _ _ _ (run_screens_array _ _ _)). reflexivity.
Qed.

(** C3.  [Application_get_screens] builds the text [res], the compact
  JSON serialization of an array with one object per screen, each with
  the members height, isCurrent, isPrimary, physicalSize, size and width,
  where width and height are those of the screen's size; it logs [res].
  But what it returns is the address of the bytes of a temporary
  QByteArray that is destroyed before the function returns: no object
  lives at the returned address, so the caller is not handed that
  string. *)
Theorem Application_get_screens_returns_dangling_pointer
  (residue app_ptr : ptr) (caller : thread) (t : toolkit) :
exists (p : ptr) (t' : toolkit) (arr : QJsonArray),
  Application_get_screens residue app_ptr caller t = Some (p, t') /\
  messages t' = (messages t ++ [("Screens", fromUtf8 (toJson (JArray arr)))])%list /\
  Forall2 (fun screen o => exists members,
             o = JObject members /\
             keys members =
               ["height"; "isCurrent"; "isPrimary"; "physicalSize"; "size"; "width"] /\
             value "width" members = Some (JInt (width (screen_size screen.2))) /\
             value "height" members = Some (JInt (height (screen_size screen.2))))
          (screens (app t)) arr /\
  p <> nullptr /\
  heap t' !! p = None.
Proof.
unfold Application_get_screens.
eexists _, _, _. split.
{ erewrite run_bind by (unfold runOnAppThread; apply run_screens_json).
  reflexivity. }
cbn [messages heap set_heap add_message].
pose proof (called_frame AppThread (screens_array_calls (app t)) t) as (Hh & Ha & Hm).
rewrite Hm. split; [reflexivity |].
split.
{ induction (screens (app t)) as [| screen rest IH]; cbn [map]; constructor.
  - eexists. split; [reflexivity |]. by repeat split.
  - exact IH. }
split; [apply fresh_addr_not_null |].
apply lookup_delete_eq.
Qed.

(** C5.  In the JSON text [Application_get_screens] builds, the object of
  every screen has the same value under physicalSize as under size: the
  object holding the pixel height and width of the screen.  The physical
  size the closure queries is not in the text: replacing the physical
  sizes of the screens by any others gives the same text. *)
Theorem physicalSize_member_is_size (residue : ptr) (th : thread) (t : toolkit) :
exists (arr : QJsonArray) (t' : toolkit),
  screens_json residue th t = Some (fromUtf8 (toJson (JArray arr)), t') /\
  Forall2 (fun screen o => exists members,
             o = JObject members /\
             value "physicalSize" members = value "size" members /\
             value "size" members =
               Some (JObject [("height", JInt (height (screen_size screen.2)));
                              ("width", JInt (width (screen_size screen.2)))]))
          (screens (app t)) arr /\
  forall f : ptr * QScreen -> QSizeF,
    fst <$> screens_json residue th (with_physicalSizes f t)
      = Some (fromUtf8 (toJson (JArray arr))).
Proof.
eexists _, _. split; [apply run_screens_json |].
split.
{ induction (screens (app t)) as [| screen rest IH]; cbn [map]; constructor.
  - eexists. split; [reflexivity |]. by split.
  - exact IH. }
intros f. rewrite run_screens_json. cbn [fmap option_fmap option_map fst].
do 4 f_equal.
unfold with_physicalSizes. cbn [app set_app screens primaryScreen focusWidget screen_of].
unfold current_screen. cbn [focusWidget screen_of].
rewrite map_map. reflexivity.
Qed.

End ScreensText.

(** C6.  One screen at address 100, no widget with focus.  The comparison
    [currentScreen == screen] reads the variable that was never assigned:
    when its stack slot happens to hold 100, the screen is reported as the
    current one; with another residue it is not. *)
Theorem isCurrent_follows_uninitialized_pointer :
  let screen := mk_QScreen (mk_QSize 1920 1080) (mk_QSizeF (527 # 1) (296 # 1)) in
  let a := mk_QApplication [(100%N, screen)] 100%N nullptr (fun _ => nullptr) false in
  let t := mk_toolkit a ∅ [] [] in
  focusWidget (app t) = nullptr /\
  (exists members t',
     screens_array 100%N AppThread t = Some ([JObject members], t') /\
     value "isCurrent" members = Some (JBool true)) /\
  (exists members t',
     screens_array 7%N AppThread t = Some ([JObject members], t') /\
     value "isCurrent" members = Some (JBool false)).
Proof.
  cbv zeta. split; [reflexivity |].
  split; eexists _, _; (split; [rewrite run_screens_array |]); reflexivity.
Qed.

End Screens.

(** ** The header *)

Section HeaderProperties.
Import Header.

(** C4.  Of the functions lib.hpp offers to the host, exactly one has no
    definition in lib.cpp: [Application_exec]. *)
Theorem Application_exec_is_declared_but_not_defined :
  In "Application_exec" offered /\
  defined "Application_exec" = false /\
  missing = ["Application_exec"].
Proof. split; [cbn; tauto | split; reflexivity]. Qed.

End HeaderProperties.

(* ===================================================================== *)
(** * Further properties of the signal fix-up                            *)
(* ===================================================================== *)

Section MoreSignalProperties.
Import Posix.

Lemma fixed_idempotent r st : fixed r (fixed r st) = fixed r st.
Proof.
  destruct st as [h m f rs]. unfold fixed, kernel_action, or_onstack.
  cbn [sa_handler sa_mask sa_flags sa_restorer]. f_equal.
  apply Z.bits_inj'. intros i Hi. rewrite !Z.lor_spec.
  destruct (Z.testbit f i), (Z.testbit SA_ONSTACK i), (Z.testbit SA_RESTORER i);
    reflexivity.
Qed.

(** What [fix_signal] does, by the state of the signal. *)
Lemma fix_signal_run a p :
  fix_signal a p =
    match dispositions p !! a with
    | Some old =>
        if uncatchable a
        then fix_signal_error a (set_errno EINVAL p)
        else set_disposition a (fixed (libc_restorer p) old) p
    | None => fix_signal_error a (set_errno EINVAL p)
    end.
Proof.
  unfold fix_signal, sigaction.
  destruct (dispositions p !! a) as [old|] eqn:E; cbn; [| reflexivity].
  rewrite E. destruct (uncatchable a); reflexivity.
Qed.

Lemma fix_signal_restorer a p : libc_restorer (fix_signal a p) = libc_restorer p.
Proof.
  rewrite fix_signal_run.
  destruct (dispositions p !! a); [destruct (uncatchable a) |]; reflexivity.
Qed.

Lemma fix_signal_lookup a p s :
  dispositions (fix_signal a p) !! s =
    if bool_decide (s = a) && negb (uncatchable a)
    then fixed (libc_restorer p) <$> dispositions p !! s
    else dispositions p !! s.
Proof.
  rewrite fix_signal_run.
  destruct (dispositions p !! a) as [old|] eqn:E.
  - destruct (uncatchable a); cbn [negb].
    + rewrite andb_false_r. reflexivity.
    + rewrite andb_true_r. case_bool_decide as Hs.
      * subst s. cbn [dispositions set_disposition]. rewrite lookup_insert_eq, E. reflexivity.
      * cbn [dispositions set_disposition]. rewrite lookup_insert_ne by congruence. reflexivity.
  - cbn [dispositions fix_signal_error write_stderr set_errno].
    case_bool_decide as Hs; [| reflexivity].
    subst s. rewrite E. destruct (uncatchable a); reflexivity.
Qed.

Lemma fix_signal_known a p s : known s (fix_signal a p) = known s p.
Proof.
  unfold known. rewrite fix_signal_lookup.
  destruct (bool_decide (s = a) && negb (uncatchable a)); [| reflexivity].
  apply bool_decide_ext. rewrite fmap_is_Some. reflexivity.
Qed.

Lemma fix_signal_stderr a p :
  stderr (fix_signal a p) =
    (stderr p ++ if known a p && negb (uncatchable a) then []
                 else [fix_signal_message a EINVAL])%list.
Proof.
  rewrite fix_signal_run. unfold known.
  destruct (dispositions p !! a) as [old|] eqn:E.
  - rewrite bool_decide_eq_true_2 by eauto.
    destruct (uncatchable a); cbn; [reflexivity | by rewrite app_nil_r].
  - rewrite bool_decide_eq_false_2 by (intros [x Hx]; discriminate). reflexivity.
Qed.

(** The line [fix_signal] writes for [signum], spelled out. *)
Lemma fix_signal_message_text signum :
  fix_signal_message signum EINVAL =
    "error fixing handler for signal " +:+ decimal signum
    +:+ ", please report this issue to https://github.com/wailsapp/wails: "
    +:+ "Invalid argument" +:+ String "010"%char EmptyString.
Proof. reflexivity. Qed.

(** X1.  [fix_signal] is idempotent on the dispositions: fixing a signal a
    second time installs nothing new, whatever the signal number. *)
Theorem fix_signal_twice_is_once (signum : Z) (p : process) :
  dispositions (fix_signal signum (fix_signal signum p))
    = dispositions (fix_signal signum p).
Proof.
  apply map_eq. intros s. rewrite !fix_signal_lookup, fix_signal_restorer.
  destruct (bool_decide (s = signum) && negb (uncatchable signum)); [| reflexivity].
  destruct (dispositions p !! s) as [old|]; cbn; [| reflexivity].
  by rewrite fixed_idempotent.
Qed.

(** X2.  The order in which two signals are fixed does not matter for the
    dispositions that result. *)
Theorem fix_signal_order_irrelevant (a b : Z) (p : process) :
  dispositions (fix_signal a (fix_signal b p))
    = dispositions (fix_signal b (fix_signal a p)).
Proof.
  apply map_eq. intros s. rewrite !fix_signal_lookup, !fix_signal_restorer.
  destruct (bool_decide (s = a) && negb (uncatchable a)),
           (bool_decide (s = b) && negb (uncatchable b)); reflexivity.
Qed.

Lemma install_signal_handlers_fold p :
  install_signal_handlers p = fold_left (fun p s => fix_signal s p) handled_signals p.
Proof. reflexivity. Qed.

Lemma handled_catchable s : In s handled_signals -> uncatchable s = false.
Proof.
  unfold handled_signals. cbn [In].
  intros H; repeat destruct H as [<- | H]; try reflexivity. contradiction.
Qed.

Lemma fold_fix_lookup l p (s : Z) :
  (forall x, In x l -> uncatchable x = false) ->
  dispositions (fold_left (fun p s => fix_signal s p) l p) !! s =
    if bool_decide (s ∈ l) then fixed (libc_restorer p) <$> dispositions p !! s
    else dispositions p !! s.
Proof.
  revert p. induction l as [| a l IH]; intros p Hl; cbn [fold_left].
  - rewrite bool_decide_eq_false_2 by apply not_elem_of_nil. reflexivity.
  - rewrite IH by (intros x Hx; apply Hl; right; exact Hx).
    rewrite fix_signal_lookup, fix_signal_restorer, (Hl a) by (left; reflexivity).
    rewrite andb_true_r.
    destruct (decide (s = a)) as [-> | Hne].
    + rewrite (bool_decide_eq_true_2 (a = a)) by reflexivity.
      rewrite (bool_decide_eq_true_2 (a ∈ a :: l)) by (apply elem_of_cons; left; reflexivity).
      case_bool_decide; [| reflexivity].
      destruct (dispositions p !! a); cbn; [| reflexivity].
      by rewrite fixed_idempotent.
    + rewrite (bool_decide_eq_false_2 (s = a)) by exact Hne.
      apply (f_equal (fun b : bool => if b then _ else _)).
      apply bool_decide_ext. rewrite elem_of_cons. tauto.
Qed.

Lemma fold_fix_stderr l p :
  (forall x, In x l -> uncatchable x = false) ->
  stderr (fold_left (fun p s => fix_signal s p) l p) =
    (stderr p ++ map (fun s => fix_signal_message s EINVAL)
                     (List.filter (fun s => negb (known s p)) l))%list.
Proof.
  revert p. induction l as [| a l IH]; intros p Hl; cbn [fold_left List.filter map].
  - by rewrite app_nil_r.
  - rewrite IH by (intros x Hx; apply Hl; right; exact Hx).
    rewrite fix_signal_stderr, (Hl a) by (left; reflexivity).
    rewrite andb_true_r, <- app_assoc. f_equal.
    rewrite (List.filter_ext (fun s => negb (known s (fix_signal a p)))
                        (fun s => negb (known s p)))
      by (intros s; by rewrite fix_signal_known).
    destruct (known a p); reflexivity.
Qed.

(** X3.  After [install_signal_handlers], each of the eleven signals it
    names that the process knows has the handler and mask it had, and the
    flags it had with SA_ONSTACK and SA_RESTORER or-ed in: both bits are set
    and every other flag bit is as before.  Its restorer is the trampoline
    of the C library, which the library's [sigaction] installs with
    SA_RESTORER. *)
Theorem install_signal_handlers_adds_onstack (signum : Z) (old : sigaction_t)
    (p : process) :
  In signum handled_signals ->
  dispositions p !! signum = Some old ->
  exists new,
    dispositions (install_signal_handlers p) !! signum = Some new /\
    sa_handler new = sa_handler old /\
    sa_mask new = sa_mask old /\
    sa_flags new = Z.lor (Z.lor (sa_flags old) SA_ONSTACK) SA_RESTORER /\
    sa_restorer new = libc_restorer p /\
    Z.testbit (sa_flags new) SA_ONSTACK_bit = true /\
    Z.testbit (sa_flags new) SA_RESTORER_bit = true /\
    (forall i, i <> SA_ONSTACK_bit -> i <> SA_RESTORER_bit ->
       Z.testbit (sa_flags new) i = Z.testbit (sa_flags old) i).
Proof.
  intros Hin Hold. exists (fixed (libc_restorer p) old).
  rewrite install_signal_handlers_fold.
  rewrite fold_fix_lookup by exact handled_catchable.
  rewrite bool_decide_eq_true_2 by (apply list_elem_of_In; exact Hin). rewrite Hold.
  do 5 (split; [reflexivity |]).
  split; [rewrite fixed_bits; reflexivity |].
  split; [rewrite fixed_bits; reflexivity |].
  intros i Hi Hj. rewrite fixed_bits.
  destruct (Z.eqb_spec i SA_ONSTACK_bit); [contradiction |].
  destruct (Z.eqb_spec i SA_RESTORER_bit); [contradiction | reflexivity].
Qed.

Lemma install_signal_handlers_adds_onstack_witness :
  let p := mk_process {[ SIGSEGV := mk_sigaction 4096 3 4 0 ]} 0 [] 5034608 in
  In SIGSEGV handled_signals /\
  dispositions (install_signal_handlers p) !! SIGSEGV
    = Some (mk_sigaction 4096 3 0x0c000004 5034608).
Proof.
  assert (H : In SIGSEGV handled_signals) by (cbn; tauto).
  split; [exact H |].
  assert (O : dispositions
                (mk_process {[ SIGSEGV := mk_sigaction 4096 3 4 0 ]} 0 [] 5034608)
                !! SIGSEGV = Some (mk_sigaction 4096 3 4 0)) by reflexivity.
  destruct (install_signal_handlers_adds_onstack SIGSEGV _ _ H O)
    as (new & Hn & Hh & Hm & Hf & Hr & _).
  rewrite Hn. destruct new as [h m f r]. cbn in Hh, Hm, Hf, Hr. subst. reflexivity.
Defined.

(** X4.  [install_signal_handlers] leaves the disposition of every signal
    it does not name exactly as it was; SIGKILL and SIGSTOP, which cannot be
    changed, are among those. *)
Theorem install_signal_handlers_touches_only_its_signals (signum : Z) (p : process) :
  ~ In signum handled_signals ->
  dispositions (install_signal_handlers p) !! signum = dispositions p !! signum.
Proof.
  intros Hout. rewrite install_signal_handlers_fold.
  rewrite fold_fix_lookup by exact handled_catchable.
  rewrite bool_decide_eq_false_2 by (rewrite list_elem_of_In; exact Hout). reflexivity.
Qed.

Lemma install_signal_handlers_touches_only_its_signals_witness :
  let p := mk_process {[ SIGKILL := mk_sigaction 0 0 0 0; SIGINT := mk_sigaction 7 0 0 0 ]}
             0 [] 5034608 in
  ~ In SIGKILL handled_signals /\
  dispositions (install_signal_handlers p) !! SIGKILL = Some (mk_sigaction 0 0 0 0).
Proof.
  assert (H : ~ In SIGKILL handled_signals).
  { cbn. intros C. repeat destruct C as [C | C]; try discriminate C. exact C. }
  split; [exact H |].
  exact (install_signal_handlers_touches_only_its_signals SIGKILL _ H).
Defined.

(** X5.  [install_signal_handlers] appends to stderr one line for each of
    its eleven signals the process does not know, in source order, and
    nothing else: the text of the format string of [fix_signal] with the
    signal number in decimal and the message of EINVAL.  Where all eleven
    are known, nothing is added. *)
Theorem install_signal_handlers_reports_unknown_signals (p : process) :
  stderr (install_signal_handlers p) =
    (stderr p ++
     map (fun s =>
            "error fixing handler for signal " +:+ decimal s
            +:+ ", please report this issue to https://github.com/wailsapp/wails: "
            +:+ "Invalid argument" +:+ String "010"%char EmptyString)
         (List.filter (fun s => negb (known s p)) handled_signals))%list.
Proof.
  rewrite install_signal_handlers_fold.
  rewrite fold_fix_stderr by exact handled_catchable.
  reflexivity.
Qed.

(** A process that knows all of the eleven signals but SIGCHLD (17) and
    SIGHUP (1): the two lines come in the order of the calls in the source,
    SIGCHLD first. *)
Lemma install_signal_handlers_reports_unknown_signals_witness :
  let known_ones := [SIGINT; SIGQUIT; SIGABRT; SIGFPE; SIGTERM; SIGBUS; SIGSEGV;
                     SIGXCPU; SIGXFSZ; SIGKILL] in
  let p := mk_process (list_to_map (map (fun s => (s, mk_sigaction 0 0 0 0)) known_ones))
             0 ["before"] 5034608 in
  stderr (install_signal_handlers p) =
    [ "before";
      "error fixing handler for signal 17, please report this issue to "
      +:+ "https://github.com/wailsapp/wails: Invalid argument"
      +:+ String "010"%char EmptyString;
      "error fixing handler for signal 1, please report this issue to "
      +:+ "https://github.com/wailsapp/wails: Invalid argument"
      +:+ String "010"%char EmptyString ].
Proof.
  cbv zeta.
  rewrite (install_signal_handlers_reports_unknown_signals _).
  vm_compute. reflexivity.
Defined.

(** X6.  Running [install_signal_handlers] again changes no disposition. *)
Theorem install_signal_handlers_twice_is_once (p : process) :
  dispositions (install_signal_handlers (install_signal_handlers p))
    = dispositions (install_signal_handlers p).
Proof.
  assert (R : forall q, libc_restorer (install_signal_handlers q) = libc_restorer q).
  { intros q. rewrite install_signal_handlers_fold.
    revert q. induction handled_signals as [| a l IH]; intros q; [reflexivity |].
    cbn [fold_left]. rewrite IH. apply fix_signal_restorer. }
  assert (L : forall q (s : Z),
            dispositions (install_signal_handlers q) !! s =
              if bool_decide (s ∈ handled_signals)
              then fixed (libc_restorer q) <$> dispositions q !! s
              else dispositions q !! s).
  { intros q s. rewrite install_signal_handlers_fold.
    apply fold_fix_lookup. exact handled_catchable. }
  apply map_eq. intros s. rewrite (L (install_signal_handlers p)), L, R.
  destruct (bool_decide (s ∈ handled_signals)); [| reflexivity].
  destruct (dispositions p !! s); cbn; [| reflexivity].
  by rewrite fixed_idempotent.
Qed.

End MoreSignalProperties.

(* ===================================================================== *)
(** * Further properties of the operations                               *)
(* ===================================================================== *)

Section OperationsOnHandles.
Import Qt Json Bridge.
Local Open Scope bridge_scope.
Context {text : QtText}.

(** An operation on a handle either finds an object of the class it casts
    to and replaces it by [effect], or is undefined.  Closing the last
    visible window also asks the application to quit. *)
Lemma perform_on_handle op p th t :
  handle_of op = Some p ->
  match heap t !! p ≫= effect op with
  | Some o' =>
      exists t', perform op th t = Some (tt, t') /\
                 heap t' = <[p := o']> (heap t) /\
                 app t' = app_after op (heap t') (app t) /\
                 messages t' = messages t
  | None => perform op th t = None
  end.
Proof.
  destruct op; intros [= <-]; cbn [perform];
    unfold Window_set_title, Window_set_minimum_size, Window_resize, Window_hide,
      Window_show, Window_fullscreen, Window_maximize, Window_close,
      WebEngineView_load_url, WebEngineView_reload, WebEngineView_run_js,
      runOnAppThread;
    unfold_toolkit;
    cbv beta iota zeta delta [bind toolkit_call the_widget the_layout the_view
      get store modify ret quit_if_last_window_closed];
    cbn [heap add_call set_heap app calls messages];
    (destruct (heap t !! _) as [[]|] eqn:E;
     cbn [mbind option_bind effect];
     repeat (cbn [heap add_call set_heap]; rewrite ?E; cbv beta iota);
     try reflexivity);
    unfold app_after; cbn [is_close andb];
    try (destruct (no_window_visible _) eqn:Q);
    (eexists; split; [reflexivity |];
     cbn [heap set_heap set_app app messages add_call];
     rewrite ?Q; repeat split).
Qed.

End OperationsOnHandles.

Ltac store_now := cbn [Qt.heap Qt.set_heap Qt.called fold_left Qt.add_call Qt.app Qt.messages].
Ltac find_now := store_now; simplify_map_eq; first [reflexivity | eauto].

Section RunningTheRest.
Import Qt Json Bridge.
Local Open Scope bridge_scope.
Context {text : QtText}.

(** Everything [Window_new] does to the store: four fresh addresses, the
    objects they hold, and nothing else. *)
Lemma Window_new_run app_ptr start_url th t :
  exists pw pl pv pn w l v t',
    Window_new app_ptr start_url th t = Some (pn, t') /\
    heap t !! pw = None /\ heap t !! pl = None /\
    heap t !! pv = None /\ heap t !! pn = None /\
    heap t' !! pn = Some (OWindow (mk_Window pw pl pv)) /\
    heap t' !! pw = Some (OWidget w) /\
    heap t' !! pl = Some (OLayout l) /\
    heap t' !! pv = Some (OView v) /\
    size w = mk_QSize 800 600 /\
    minimumSize w = mk_QSize 320 240 /\
    (forall q, q <> pw -> q <> pl -> q <> pv -> q <> pn -> heap t' !! q = heap t !! q) /\
    app t' = app t /\ messages t' = messages t.
Proof.
  unfold Window_new, runOnAppThread.
  pose proof (fresh_addr_free (heap t)) as Fw.
  rewrite (run_bind _ _ _ _ _ _ (run_QWidget_new _ _)).
  remember (fresh_addr (heap t)) as pw eqn:Epw. clear Epw.
  erewrite run_bind by (eapply run_resize; find_now).
  erewrite run_bind by (eapply run_setMinimumSize; find_now).
  erewrite run_bind by (eapply run_QVBoxLayout_new; find_now).
  store_now. cbv zeta.
  match goal with |- context [fresh_addr ?h] =>
    assert (Nl : fresh_addr h <> pw) by (apply fresh_addr_ne; simplify_map_eq; eauto);
    pose proof (fresh_addr_free h) as Fl;
    remember (fresh_addr h) as pl eqn:Epl; clear Epl
  end.
  erewrite run_bind by (eapply run_setContentsMargins; find_now).
  erewrite run_bind by (eapply run_setSpacing; find_now).
  erewrite run_bind by (eapply run_QWebEngineView_new; find_now).
  store_now.
  match goal with |- context [fresh_addr ?h] =>
    assert (Nv : fresh_addr h <> pw) by (apply fresh_addr_ne; simplify_map_eq; eauto);
    assert (Nvl : fresh_addr h <> pl) by (apply fresh_addr_ne; simplify_map_eq; eauto);
    pose proof (fresh_addr_free h) as Fv;
    remember (fresh_addr h) as pv eqn:Epv; clear Epv
  end.
  erewrite run_bind by (eapply run_addWidget; find_now).
  erewrite run_bind by (eapply run_load; find_now).
  erewrite run_bind by (eapply run_show; find_now).
  unfold new. store_now.
  match goal with |- context [fresh_addr ?h] =>
    assert (Nn : fresh_addr h <> pw) by (apply fresh_addr_ne; simplify_map_eq; eauto);
    assert (Nnl : fresh_addr h <> pl) by (apply fresh_addr_ne; simplify_map_eq; eauto);
    assert (Nnv : fresh_addr h <> pv) by (apply fresh_addr_ne; simplify_map_eq; eauto);
    pose proof (fresh_addr_free h) as Fn;
    remember (fresh_addr h) as pn eqn:Epn; clear Epn
  end.
  repeat (rewrite lookup_insert_ne in Fl by congruence).
  repeat (rewrite lookup_insert_ne in Fv by congruence).
  repeat (rewrite lookup_insert_ne in Fn by congruence).
  exists pw, pl, pv, pn. eexists _, _, _, _.
  split; [reflexivity |].
  do 4 (split; [assumption |]).
  store_now.
  split; [apply lookup_insert_eq |].
  split; [simplify_map_eq; reflexivity |].
  split; [simplify_map_eq; reflexivity |].
  split; [simplify_map_eq; reflexivity |].
  split; [reflexivity |]. split; [reflexivity |].
  split; [| split; reflexivity].
  intros q ? ? ? ?. simplify_map_eq. reflexivity.
Qed.

Lemma run_Application_quit app_ptr th t :
  Application_quit app_ptr th t =
    Some (tt, set_app {| screens := screens (app t);
                         primaryScreen := primaryScreen (app t);
                         focusWidget := focusWidget (app t);
                         screen_of := screen_of (app t);
                         quit_requested := true |}
                (called AppThread ["QCoreApplication::quit"] t)).
Proof. reflexivity. Qed.

(** [Application_get_screens] leaves the store and the application as they
    were: the temporary it creates is gone when it returns. *)
Lemma run_Application_get_screens residue app_ptr th t :
  exists p t',
    Application_get_screens residue app_ptr th t = Some (p, t') /\
    heap t' = heap t /\ app t' = app t.
Proof.
  unfold Application_get_screens. eexists _, _. split.
  { erewrite run_bind by (unfold runOnAppThread; apply run_screens_json).
    reflexivity. }
  pose proof (called_frame AppThread (screens_array_calls (app t)) t) as (Hh & Ha & Hm).
  cbn [heap app set_heap add_message]. rewrite Hh, Ha. split; [| reflexivity].
  apply delete_insert_id. apply fresh_addr_free.
Qed.

End RunningTheRest.

Section WhatOperationsKeep.
Import Qt Json Bridge.
Local Open Scope bridge_scope.
Context {text : QtText}.

Lemma lookup_same (h : gmap N object) p a b :
  h !! p = Some a -> h !! p = Some b -> a = b.
Proof. intros H1 H2. rewrite H1 in H2. by injection H2. Qed.

Lemma effect_class op o o' :
  effect op o = Some o' ->
  class_of o' = class_of o /\ expected_class op = Some (class_of o).
Proof. destruct op, o; cbn; intros [= <-]; split; reflexivity. Qed.

Lemma effect_defined op p o :
  handle_of op = Some p ->
  expected_class op = Some (class_of o) -> is_Some (effect op o).
Proof. destruct op, o; cbn; intros [= <-] [=]; eexists; reflexivity. Qed.

Lemma effect_sized op o o' : effect op o = Some o' -> sized o -> sized o'.
Proof.
  destruct op, o; cbn; intros [= <-]; cbn; try exact id; try tauto; intros [? ?]; lia.
Qed.

Lemma handle_case op p th t t' :
  handle_of op = Some p ->
  perform op th t = Some (tt, t') ->
  exists o o',
    heap t !! p = Some o /\ effect op o = Some o' /\
    heap t' = <[p := o']> (heap t) /\
    app t' = app_after op (heap t') (app t) /\ messages t' = messages t.
Proof.
  intros Hh Hrun. pose proof (perform_on_handle op p th t Hh) as H.
  destruct (heap t !! p) as [o|] eqn:E; cbn in H.
  - destruct (effect op o) as [o'|] eqn:Ee.
    + destruct H as (t'' & Hr & Hrest). rewrite Hr in Hrun.
      injection Hrun as <-. exists o, o'. by repeat split; try apply Hrest.
    + rewrite H in Hrun. discriminate.
  - rewrite H in Hrun. discriminate.
Qed.

Lemma defined_on_handle_iff op p th t :
  handle_of op = Some p ->
  (is_Some (perform op th t) <->
   exists o, heap t !! p = Some o /\ expected_class op = Some (class_of o)).
Proof.
  intros Hh. pose proof (perform_on_handle op p th t Hh) as H. split.
  - intros [[[] t'] Hrun].
    destruct (handle_case _ _ _ _ _ Hh Hrun) as (o & o' & Ho & He & _).
    exists o. split; [exact Ho | exact (proj2 (effect_class _ _ _ He))].
  - intros (o & Ho & Hc). rewrite Ho in H. cbn in H.
    destruct (effect_defined op p o Hh Hc) as [o' He]. rewrite He in H.
    destruct H as (t' & Hr & _). rewrite Hr. eauto.
Qed.

(** X8.  What [Window_new] hands out: the [window] member of the record is
    accepted by every window operation and the [web_engine_view] member by
    every web view operation, while the address of the record itself (the
    value [Window_new] returns) and the [window_layout] member are accepted
    by none. *)
Theorem Window_new_handles (app_ptr : ptr) (start_url : string)
    (caller : thread) (t : toolkit) :
  exists win t1 W,
    Window_new app_ptr start_url caller t = Some (win, t1) /\
    heap t1 !! win = Some (OWindow W) /\
    (forall op th, handle_of op = Some (window W) ->
       expected_class op = Some Widget -> is_Some (perform op th t1)) /\
    (forall op th, handle_of op = Some (web_engine_view W) ->
       expected_class op = Some View -> is_Some (perform op th t1)) /\
    (forall op th, handle_of op = Some win -> perform op th t1 = None) /\
    (forall op th, handle_of op = Some (window_layout W) -> perform op th t1 = None).
Proof.
  destruct (Window_new_run app_ptr start_url caller t)
    as (pw & pl & pv & pn & w & l & v & t1 & Hrun & _ & _ & _ & _ &
        Hn & Hw & Hl & Hv & _).
  exists pn, t1, (mk_Window pw pl pv). cbn [window window_layout web_engine_view].
  split; [exact Hrun |]. split; [exact Hn |].
  assert (U : forall op th p o, heap t1 !! p = Some o ->
            (class_of o = WindowRecord \/ class_of o = Layout) ->
            handle_of op = Some p -> perform op th t1 = None).
  { intros op th p o Ho Hc Hh.
    destruct (perform op th t1) as [[[] t2]|] eqn:E; [| reflexivity].
    destruct (handle_case _ _ _ _ _ Hh E) as (o1 & o2 & Ho1 & He & _).
    rewrite Ho in Ho1. injection Ho1 as <-.
    apply effect_class in He as [_ He].
    destruct op; cbn in He; try discriminate; injection He as He;
      rewrite <- He in Hc; destruct Hc; discriminate. }
  repeat split.
  - intros op th Hh Hc. apply (defined_on_handle_iff op pw th t1 Hh). eauto.
  - intros op th Hh Hc. apply (defined_on_handle_iff op pv th t1 Hh). eauto.
  - intros op th. apply (U op th pn _ Hn). left. reflexivity.
  - intros op th. apply (U op th pl _ Hl). right. reflexivity.
Qed.

Lemma no_handle_case op th t t' :
  handle_of op = None ->
  perform op th t = Some (tt, t') ->
  (is_quit op = true /\ heap t' = heap t) \/
  (is_quit op = false /\ is_Window_new op = false /\ heap t' = heap t /\ app t' = app t) \/
  (exists a u, op = Do_Window_new a u).
Proof.
  destruct op; cbn [handle_of]; try discriminate; intros _ Hrun.
  - left. cbn [perform] in Hrun. rewrite run_Application_quit in Hrun.
    injection Hrun as <-. split; reflexivity.
  - right; left. cbn [perform] in Hrun. unfold discard, bind in Hrun.
    destruct (run_Application_get_screens residue app_ptr th t) as (p & t1 & Hr & Hh & Ha).
    rewrite Hr in Hrun. injection Hrun as <-. by repeat split.
  - right; right. eauto.
Qed.


Lemma no_window_visible_spec (h : gmap N object) :
  no_window_visible h = true <->
  forall p w, h !! p = Some (OWidget w) -> visible w = false.
Proof.
  unfold no_window_visible. rewrite forallb_forall. split.
  - intros H p w Hp.
    assert (Hin : In (p, OWidget w) (map_to_list h)).
    { apply list_elem_of_In. apply elem_of_map_to_list. exact Hp. }
    specialize (H _ Hin). cbn in H. by apply negb_true_iff.
  - intros H [p o] Hin. apply list_elem_of_In, elem_of_map_to_list in Hin.
    cbn. destruct o; try reflexivity. apply negb_true_iff. exact (H _ _ Hin).
Qed.

(** X10.  The web view operations and [Application_get_screens] reach
    nothing but the view they are called on: every other object of the
    store (each window with its title, sizes, state and visibility, each
    other view) is as before, and so is the application;
    [Application_get_screens], which has no handle, changes no object at
    all. *)
Theorem view_operations_touch_only_their_view (op : operation) (caller : thread)
    (t t' : toolkit) :
  perform op caller t = Some (tt, t') ->
  expected_class op <> Some Widget ->
  is_Window_new op = false ->
  is_quit op = false ->
  (forall q, handle_of op <> Some q -> heap t' !! q = heap t !! q) /\
  (handle_of op = None -> heap t' = heap t) /\
  app t' = app t.
Proof.
  intros Hrun Hw Hnew Hquit. destruct (handle_of op) as [h|] eqn:Hh.
  - destruct (handle_case _ _ _ _ _ Hh Hrun) as (o1 & o2 & _ & _ & Hheap & Happ & _).
    split; [| split].
    + intros q Hq. rewrite Hheap. apply lookup_insert_ne. congruence.
    + discriminate.
    + rewrite Happ. unfold app_after.
      destruct op; try discriminate Hh; try reflexivity; by destruct Hw.
  - destruct (no_handle_case _ _ _ _ Hh Hrun)
      as [[Hq _] | [(_ & _ & Hheap & Happ) | (a & u & ->)]].
    + rewrite Hq in Hquit. discriminate Hquit.
    + split; [| split]; [intros q _; by rewrite Hheap | intros _; exact Hheap | exact Happ].
    + discriminate Hnew.
Qed.

(** X11.  What makes the application quit.  After any operation the screens
    and the primary screen are as before, and quitting has been requested
    exactly if it had been before, or the operation is [Application_quit],
    or the operation is [Window_close] and no window of the store is
    visible once it has run: closing the last visible window ends the
    application, although the bridge never says so. *)
Theorem what_makes_the_application_quit (op : operation) (caller : thread)
    (t t' : toolkit) :
  perform op caller t = Some (tt, t') ->
  screens (app t') = screens (app t) /\
  primaryScreen (app t') = primaryScreen (app t) /\
  quit_requested (app t') =
    quit_requested (app t) || is_quit op
    || (is_close op && no_window_visible (heap t')) /\
  (no_window_visible (heap t') = true <->
   forall p w, heap t' !! p = Some (OWidget w) -> visible w = false).
Proof.
  intros Hrun.
  enough (H : screens (app t') = screens (app t) /\
              primaryScreen (app t') = primaryScreen (app t) /\
              quit_requested (app t') =
                quit_requested (app t) || is_quit op
                || (is_close op && no_window_visible (heap t'))).
  { destruct H as (H1 & H2 & H3). repeat split; try assumption;
      apply no_window_visible_spec. }
  destruct (handle_of op) as [h|] eqn:Hh.
  - destruct (handle_case _ _ _ _ _ Hh Hrun) as (o1 & o2 & _ & _ & _ & Happ & _).
    rewrite Happ. unfold app_after.
    assert (Hq : is_quit op = false) by (destruct op; try discriminate Hh; reflexivity).
    rewrite Hq, orb_false_r.
    destruct (is_close op && no_window_visible (heap t')); cbn.
    + repeat split. by rewrite orb_true_r.
    + repeat split. by rewrite orb_false_r.
  - destruct op; try discriminate Hh; cbn [perform is_quit is_close andb] in *;
      rewrite orb_false_r.
    + rewrite run_Application_quit in Hrun. injection Hrun as <-.
      cbn. repeat split. by rewrite orb_true_r.
    + unfold discard, bind in Hrun.
      destruct (run_Application_get_screens residue app_ptr caller t)
        as (p & t1 & Hr & _ & Ha).
      rewrite Hr in Hrun. injection Hrun as <-. rewrite Ha, orb_false_r. by repeat split.
    + unfold discard, bind in Hrun.
      destruct (Window_new_run app_ptr start_url caller t)
        as (pw & pl & pv & pn & w & l & v & t1 & Hr & _ & _ & _ & _ &
            _ & _ & _ & _ & _ & _ & _ & Ha & _).
      rewrite Hr in Hrun. injection Hrun as <-. rewrite Ha, orb_false_r. by repeat split.
Qed.

(** X12.  No window is ever smaller than its minimum size: the window
    [Window_new] creates is not, and every operation ([Window_resize] with a
    size below the minimum and [Window_set_minimum_size] with a minimum above
    the size included) keeps it so for all windows. *)
Theorem windows_respect_their_minimum_size (op : operation) (caller : thread)
    (t t' : toolkit) :
  (forall p o, heap t !! p = Some o -> sized o) ->
  perform op caller t = Some (tt, t') ->
  forall p o, heap t' !! p = Some o -> sized o.
Proof.
  intros Inv Hrun p o Ho. destruct (handle_of op) as [h|] eqn:Hh.
  - destruct (handle_case _ _ _ _ _ Hh Hrun) as (o1 & o2 & Ho1 & He & Hheap & _).
    rewrite Hheap in Ho. destruct (decide (p = h)) as [-> | Hne].
    + rewrite lookup_insert_eq in Ho. injection Ho as <-.
      exact (effect_sized _ _ _ He (Inv _ _ Ho1)).
    + rewrite lookup_insert_ne in Ho by congruence. eauto.
  - destruct (no_handle_case _ _ _ _ Hh Hrun)
      as [[_ Hheap] | [(_ & _ & Hheap & _) | (a & u & ->)]].
    + rewrite Hheap in Ho. eauto.
    + rewrite Hheap in Ho. eauto.
    + cbn [perform] in Hrun. unfold discard, bind in Hrun.
      destruct (Window_new_run a u caller t)
        as (pw & pl & pv & pn & w & l & v & t1 & Hr & _ & _ & _ & _ &
            Hn & Hw & Hl & Hv & Hs & Hm & Hframe & _).
      rewrite Hr in Hrun. injection Hrun as <-.
      destruct (decide (p = pw)) as [-> |]; [| destruct (decide (p = pl)) as [-> |];
        [| destruct (decide (p = pv)) as [-> |]; [| destruct (decide (p = pn)) as [-> |]]]].
      * rewrite <- (lookup_same _ _ _ _ Hw Ho). cbn. rewrite Hs, Hm. cbn. lia.
      * rewrite <- (lookup_same _ _ _ _ Hl Ho). exact I.
      * rewrite <- (lookup_same _ _ _ _ Hv Ho). exact I.
      * rewrite <- (lookup_same _ _ _ _ Hn Ho). exact I.
      * apply (Inv p). rewrite <- Ho. symmetry. by apply Hframe.
Qed.

End WhatOperationsKeep.

Section WitnessesOfWhatOperationsKeep.
Import Qt Json Bridge.


Lemma view_operations_touch_only_their_view_witness :
  match perform (text := ascii_text) (Do_WebEngineView_reload 9%N) HostThread
          (set_heap (<[9%N := OView (mk_QWebEngineView 5%N None 0 [])]> (heap one_window))
                    one_window) with
  | Some (_, t') =>
      heap t' !! 5%N = Some (OWidget (set_windowState WindowMaximized default_widget)) /\
      heap t' !! 9%N = Some (OView (mk_QWebEngineView 5%N None 1 [])) /\
      quit_requested (app t') = false
  | None => False
  end.
Proof.
  destruct (perform (text := ascii_text) (Do_WebEngineView_reload 9%N) HostThread
              (set_heap (<[9%N := OView (mk_QWebEngineView 5%N None 0 [])]>
                           (heap one_window)) one_window))
    as [[[] t']|] eqn:E.
  - assert (Hc : expected_class (Do_WebEngineView_reload 9%N) <> Some Widget)
      by discriminate.
    destruct (view_operations_touch_only_their_view _ _ _ _ E Hc eq_refl eq_refl)
      as (Hother & _ & Happ).
    split; [| split].
    + etrans; [apply Hother; cbn; discriminate | reflexivity].
    + vm_compute in E. injection E as <-. reflexivity.
    + rewrite Happ. reflexivity.
  - vm_compute in E. discriminate E.
Defined.

Lemma what_makes_the_application_quit_witness :
  let shown := OWidget (set_visible true default_widget) in
  let one := set_heap {[ 5%N := shown ]} one_window in
  let two := set_heap {[ 5%N := shown; 9%N := shown ]} one_window in
  quit_requested (app one) = false /\
  match perform (text := ascii_text) (Do_Window_close 5%N) HostThread one with
  | Some (_, t') => quit_requested (app t') = true
  | None => False
  end /\
  match perform (text := ascii_text) (Do_Window_close 5%N) HostThread two with
  | Some (_, t') => quit_requested (app t') = false
  | None => False
  end.
Proof.
  cbv zeta. split; [reflexivity |]. split.
  - destruct (perform (text := ascii_text) (Do_Window_close 5%N) HostThread
                (set_heap {[ 5%N := OWidget (set_visible true default_widget) ]}
                          one_window))
      as [[[] t']|] eqn:E.
    + destruct (what_makes_the_application_quit _ _ _ _ E) as (_ & _ & Hq & _).
      rewrite Hq. vm_compute in E. injection E as <-. reflexivity.
    + vm_compute in E. discriminate E.
  - destruct (perform (text := ascii_text) (Do_Window_close 5%N) HostThread
                (set_heap {[ 5%N := OWidget (set_visible true default_widget);
                             9%N := OWidget (set_visible true default_widget) ]}
                          one_window))
      as [[[] t']|] eqn:E.
    + destruct (what_makes_the_application_quit _ _ _ _ E) as (_ & _ & Hq & _).
      rewrite Hq. vm_compute in E. injection E as <-. reflexivity.
    + vm_compute in E. discriminate E.
Defined.

Lemma windows_respect_their_minimum_size_witness :
  (forall p o, heap one_window !! p = Some o -> sized o) /\
  match perform (text := ascii_text) (Do_Window_set_minimum_size 5%N 1000 700)
          HostThread one_window with
  | Some (_, t') => forall p o, heap t' !! p = Some o -> sized o
  | None => False
  end.
Proof.
  assert (Inv : forall p o, heap one_window !! p = Some o -> sized o).
  { intros p o. unfold one_window. cbn [heap].
    destruct (decide (p = 5%N)) as [-> |].
    - rewrite lookup_singleton_eq. intros [= <-]. cbn. lia.
    - rewrite lookup_singleton_ne by congruence. discriminate. }
  split; [exact Inv |].
  destruct (perform (text := ascii_text) (Do_Window_set_minimum_size 5%N 1000 700)
              HostThread one_window) as [[[] t']|] eqn:E.
  - exact (windows_respect_their_minimum_size _ _ _ _ Inv E).
  - vm_compute in E. discriminate E.
Defined.

End WitnessesOfWhatOperationsKeep.

(** ** Window states, screens and the header, continued *)

Section WindowStates.
Import Qt Json Bridge.
Local Open Scope bridge_scope.

Lemma run_showMinimized p w th t :
  heap t !! p = Some (OWidget w) ->
  QWidget_showMinimized p th t =
    Some (tt, set_heap
                (<[p := OWidget
                     (set_visible true
                        (set_windowState
                           (Z.lor (Z.land (windowState w) (Z.lnot WindowActive))
                                  WindowMinimized) w))]> (heap t))
                (called th ["QWidget::showMinimized"] t)).
Proof. intros H. run_method H. Qed.

Lemma run_showNormal p w th t :
  heap t !! p = Some (OWidget w) ->
  QWidget_showNormal p th t =
    Some (tt, set_heap
                (<[p := OWidget
                     (set_visible true
                        (set_windowState
                           (Z.land (windowState w)
                              (Z.lnot (Z.lor WindowMinimized
                                         (Z.lor WindowMaximized WindowFullScreen)))) w))]>
                   (heap t))
                (called th ["QWidget::showNormal"] t)).
Proof. intros H. run_method H. Qed.

Lemma minimized_bits st i :
  Z.testbit (Z.lor (Z.land st (Z.lnot WindowActive)) WindowMinimized) i =
    if Z.eqb i 0 then true
    else if Z.eqb i 3 then false
    else Z.testbit st i.
Proof.
  destruct (Z.ltb_spec i 0) as [Hneg | Hpos].
  - rewrite !Z.testbit_neg_r by exact Hneg.
    destruct (Z.eqb_spec i 0); [lia |]. destruct (Z.eqb_spec i 3); [lia | reflexivity].
  - rewrite Z.lor_spec, Z.land_spec, Z.lnot_spec by exact Hpos.
    change WindowActive with (2 ^ 3). change WindowMinimized with (2 ^ 0).
    rewrite !Z.pow2_bits_eqb by lia.
    rewrite (Z.eqb_sym 3 i), (Z.eqb_sym 0 i).
    destruct (Z.eqb_spec i 0), (Z.eqb_spec i 3), (Z.testbit st i); try reflexivity; lia.
Qed.

Lemma normal_bits st i :
  Z.testbit (Z.land st (Z.lnot (Z.lor WindowMinimized
                                  (Z.lor WindowMaximized WindowFullScreen)))) i =
    if (Z.leb 0 i && Z.ltb i 3)%bool then false else Z.testbit st i.
Proof.
  destruct (Z.ltb_spec i 0) as [Hneg | Hpos].
  - rewrite !Z.testbit_neg_r by exact Hneg.
    destruct (Z.leb_spec 0 i); [lia | reflexivity].
  - rewrite Z.land_spec, Z.lnot_spec by exact Hpos.
    change (Z.lor WindowMinimized (Z.lor WindowMaximized WindowFullScreen)) with (Z.ones 3).
    rewrite Z.testbit_ones_nonneg by lia.
    destruct (Z.leb_spec 0 i); [| lia]. cbn [andb].
    destruct (Z.ltb i 3), (Z.testbit st i); reflexivity.
Qed.

(** X13.  [Window_hide] does not hide: on a live window it returns with the
    window shown and minimized; no state flag other than minimized and
    active is touched, and size, minimum size and title are as before. *)
Theorem Window_hide_minimizes (win : ptr) (w : QWidget) (caller : thread)
    (t : toolkit) :
  heap t !! win = Some (OWidget w) ->
  exists t' w',
    Window_hide win caller t = Some (tt, t') /\
    heap t' !! win = Some (OWidget w') /\
    visible w' = true /\
    Z.testbit (windowState w') 0 = true /\
    (forall i, i <> 0 -> i <> 3 ->
       Z.testbit (windowState w') i = Z.testbit (windowState w) i) /\
    size w' = size w /\ minimumSize w' = minimumSize w /\
    windowTitle w' = windowTitle w.
Proof.
  intros H. eexists _, _. split.
  { unfold Window_hide, runOnAppThread. apply (run_showMinimized _ _ _ _ H). }
  cbn [heap set_heap]. split; [apply lookup_insert_eq |].
  cbn [visible windowState size minimumSize windowTitle set_visible set_windowState].
  split; [reflexivity |].
  split; [rewrite minimized_bits; reflexivity |].
  split; [| by repeat split].
  intros i H0 H3. rewrite minimized_bits.
  destruct (Z.eqb_spec i 0); [contradiction |].
  destruct (Z.eqb_spec i 3); [contradiction | reflexivity].
Qed.

(** X14.  [Window_show] on a live window shows it in its normal state: the
    minimized, maximized and full-screen flags are cleared, whatever they
    were, and every other state flag is kept.  So it undoes [Window_hide],
    and also a [Window_maximize] or [Window_fullscreen] that was in effect. *)
Theorem Window_show_restores_normal_state (win : ptr) (w : QWidget)
    (caller : thread) (t : toolkit) :
  heap t !! win = Some (OWidget w) ->
  exists t' w',
    Window_show win caller t = Some (tt, t') /\
    heap t' !! win = Some (OWidget w') /\
    visible w' = true /\
    Z.testbit (windowState w') 0 = false /\
    Z.testbit (windowState w') 1 = false /\
    Z.testbit (windowState w') 2 = false /\
    (forall i, 3 <= i -> Z.testbit (windowState w') i = Z.testbit (windowState w) i) /\
    size w' = size w /\ minimumSize w' = minimumSize w /\
    windowTitle w' = windowTitle w.
Proof.
  intros H. eexists _, _. split.
  { unfold Window_show, runOnAppThread. apply (run_showNormal _ _ _ _ H). }
  cbn [heap set_heap]. split; [apply lookup_insert_eq |].
  cbn [visible windowState size minimumSize windowTitle set_visible set_windowState].
  split; [reflexivity |].
  do 3 (split; [rewrite normal_bits; reflexivity |]).
  split; [| by repeat split].
  intros i Hi. rewrite normal_bits.
  destruct (Z.ltb_spec i 3); [lia |]. by rewrite andb_false_r.
Qed.

(** X15.  [Window_fullscreen] and [Window_maximize] commute: toggling the
    two flags in either order leaves the same store, in which the window
    state of the widget is the old state with both flags (bits 1 and 2)
    flipped and every other bit as it was. *)
Theorem fullscreen_and_maximize_commute (win : ptr) (w : QWidget)
    (caller : thread) (t : toolkit) :
  heap t !! win = Some (OWidget w) ->
  exists t1 t2 t1' t2' w2,
    Window_fullscreen win caller t = Some (tt, t1) /\
    Window_maximize win caller t1 = Some (tt, t2) /\
    Window_maximize win caller t = Some (tt, t1') /\
    Window_fullscreen win caller t1' = Some (tt, t2') /\
    heap t2 = heap t2' /\
    heap t2 !! win = Some (OWidget w2) /\
    windowState w2 = Z.lxor (windowState w) (Z.lor WindowFullScreen WindowMaximized) /\
    (forall i, Z.testbit (windowState w2) i =
               if (Z.eqb i 1 || Z.eqb i 2)%bool then negb (Z.testbit (windowState w) i)
               else Z.testbit (windowState w) i) /\
    size w2 = size w /\ minimumSize w2 = minimumSize w /\
    windowTitle w2 = windowTitle w /\ visible w2 = visible w.
Proof.
  intros H.
  eexists _, _, _, _,
    (set_windowState (Z.lxor (windowState w) (Z.lor WindowFullScreen WindowMaximized)) w).
  split; [apply (run_toggle WindowFullScreen win w caller t H) |].
  split; [eapply (run_toggle WindowMaximized win);
          cbn [heap set_heap]; apply lookup_insert_eq |].
  split; [apply (run_toggle WindowMaximized win w caller t H) |].
  split; [eapply (run_toggle WindowFullScreen win);
          cbn [heap set_heap]; apply lookup_insert_eq |].
  cbn [heap set_heap called fold_left add_call].
  rewrite !insert_insert_eq.
  assert (E : forall f g,
    set_windowState (Z.lxor (windowState (set_windowState (Z.lxor (windowState w) f) w)) g)
      (set_windowState (Z.lxor (windowState w) f) w)
    = set_windowState (Z.lxor (windowState w) (Z.lxor f g)) w).
  { intros f g. destruct w. unfold set_windowState. cbn. by rewrite Z.lxor_assoc. }
  rewrite !E. rewrite (Z.lxor_comm WindowMaximized WindowFullScreen).
  split; [reflexivity |]. split; [rewrite lookup_insert_eq; reflexivity |].
  split; [reflexivity |].
  split; [| by repeat split].
  intros i. cbn [windowState set_windowState].
  change (Z.lor WindowFullScreen WindowMaximized) with (Z.lxor (2 ^ 2) (2 ^ 1)).
  rewrite <- Z.lxor_assoc, (toggle_bits _ 1 i) by lia.
  rewrite (toggle_bits _ 2 i) by lia.
  destruct (Z.eqb_spec i 1), (Z.eqb_spec i 2); try reflexivity; lia.
Qed.

End WindowStates.

Section WindowStateWitnesses.
Import Qt Json Bridge.

Lemma Window_hide_minimizes_witness :
  heap one_window !! 5%N
    = Some (OWidget (set_windowState WindowMaximized default_widget)) /\
  exists t' w',
    Window_hide 5%N HostThread one_window = Some (tt, t') /\
    heap t' !! 5%N = Some (OWidget w') /\
    visible w' = true /\ Z.testbit (windowState w') 0 = true.
Proof.
  split; [reflexivity |].
  destruct (Window_hide_minimizes 5%N _ HostThread one_window eq_refl)
    as (t' & w' & Hr & Hw & Hv & Hb & _).
  exists t', w'. by repeat split.
Defined.

Lemma Window_show_restores_normal_state_witness :
  heap one_window !! 5%N
    = Some (OWidget (set_windowState WindowMaximized default_widget)) /\
  exists t' w',
    Window_show 5%N HostThread one_window = Some (tt, t') /\
    heap t' !! 5%N = Some (OWidget w') /\
    visible w' = true /\ Z.testbit (windowState w') 1 = false.
Proof.
  split; [reflexivity |].
  destruct (Window_show_restores_normal_state 5%N _ HostThread one_window eq_refl)
    as (t' & w' & Hr & Hw & Hv & _ & Hb & _).
  exists t', w'. by repeat split.
Defined.

Lemma fullscreen_and_maximize_commute_witness :
  (exists w, heap one_window !! 5%N = Some (OWidget w) /\ windowState w = 2) /\
  exists t1 t2 w2,
    Window_fullscreen 5%N HostThread one_window = Some (tt, t1) /\
    Window_maximize 5%N HostThread t1 = Some (tt, t2) /\
    heap t2 !! 5%N = Some (OWidget w2) /\
    windowState w2 = 4.
Proof.
  split; [eexists; split; reflexivity |].
  destruct (fullscreen_and_maximize_commute 5%N _ HostThread one_window eq_refl)
    as (t1 & t2 & _ & _ & w2 & H1 & H2 & _ & _ & _ & Hw & Hs & _).
  exists t1, t2, w2. split; [exact H1 |]. split; [exact H2 |].
  split; [exact Hw | exact Hs].
Defined.

End WindowStateWitnesses.

Section MoreScreens.
Import Qt Json Bridge.
Local Open Scope bridge_scope.
Context {text : QtText}.

(** X16.  When a widget has focus, [currentScreen] is assigned before the
    loop reads it: the JSON text does not depend on what the stack held, and
    isCurrent is true exactly for the screen of the focused widget's
    window. *)
Theorem isCurrent_with_focus (residue residue' : ptr) (th : thread) (t : toolkit) :
  focusWidget (app t) <> nullptr ->
  screens_json residue th t = screens_json residue' th t /\
  exists arr t',
    screens_json residue th t = Some (fromUtf8 (toJson (JArray arr)), t') /\
    Forall2 (fun screen o => exists members,
               o = JObject members /\
               value "isCurrent" members =
                 Some (JBool (N.eqb (screen_of (app t) (focusWidget (app t))) screen.1)))
            (screens (app t)) arr.
Proof.
  intros Hf.
  assert (C : forall r, current_screen r (app t) = screen_of (app t) (focusWidget (app t))).
  { intros r. unfold current_screen.
    destruct (N.eqb_spec (focusWidget (app t)) nullptr); [contradiction | reflexivity]. }
  split; [by rewrite !run_screens_json, !C |].
  eexists _, _. split; [apply run_screens_json |].
  rewrite C.
  induction (screens (app t)) as [| screen rest IH]; cbn [map]; constructor.
  - eexists. split; reflexivity.
  - exact IH.
Qed.

(** X17.  isPrimary is true exactly for the screen [primaryScreen()]
    returns, whether or not a widget has focus; the objects come in the
    order of [screens()], one per screen. *)
Theorem isPrimary_marks_the_primary_screen (residue : ptr) (th : thread)
    (t : toolkit) :
  exists arr t',
    screens_json residue th t = Some (fromUtf8 (toJson (JArray arr)), t') /\
    length arr = length (screens (app t)) /\
    Forall2 (fun screen o => exists members,
               o = JObject members /\
               value "isPrimary" members =
                 Some (JBool (N.eqb (primaryScreen (app t)) screen.1)))
            (screens (app t)) arr.
Proof.
  eexists _, _. split; [apply run_screens_json |].
  split; [apply length_map |].
  induction (screens (app t)) as [| screen rest IH]; cbn [map]; constructor.
  - eexists. split; reflexivity.
  - exact IH.
Qed.

(** X18.  With no screen the loop body never runs: the text is the empty
    array, whatever the focus and whatever the uninitialized pointer
    holds. *)
Theorem no_screens_gives_empty_array (residue : ptr) (th : thread) (t : toolkit) :
  screens (app t) = [] ->
  fst <$> screens_json residue th t = Some (fromUtf8 "[]").
Proof.
  intros H. rewrite run_screens_json, H. reflexivity.
Qed.

End MoreScreens.

Section MoreScreensWitnesses.
Import Qt Json Bridge.

Lemma isCurrent_with_focus_witness :
  let screen := mk_QScreen (mk_QSize 1920 1080) (mk_QSizeF (527 # 1) (296 # 1)) in
  let a := mk_QApplication [(100%N, screen)] 100%N 5%N (fun _ => 100%N) false in
  let t := mk_toolkit a ∅ [] [] in
  focusWidget (app t) <> nullptr /\
  screens_json (text := ascii_text) 7%N AppThread t
    = screens_json (text := ascii_text) 9%N AppThread t.
Proof.
  cbv zeta.
  assert (H : (5%N : ptr) <> nullptr) by discriminate.
  split; [exact H |].
  exact (proj1 (isCurrent_with_focus (text := ascii_text) 7%N 9%N AppThread
                  (mk_toolkit
                     (mk_QApplication
                        [(100%N, mk_QScreen (mk_QSize 1920 1080)
                                   (mk_QSizeF (527 # 1) (296 # 1)))]
                        100%N 5%N (fun _ => 100%N) false) ∅ [] []) H)).
Defined.

Lemma no_screens_gives_empty_array_witness :
  screens (app one_window) = [] /\
  fst <$> screens_json (text := ascii_text) 7%N AppThread one_window
    = Some [91%N; 93%N].
Proof.
  split; [reflexivity |].
  exact (no_screens_gives_empty_array (text := ascii_text) 7%N AppThread one_window
           eq_refl).
Defined.

End MoreScreensWitnesses.

Section MoreHeaderProperties.
Import Header.

(** X19.  lib.cpp defines nothing behind the back of the header: every
    function it defines is one lib.hpp offers, and neither file names a
    function twice. *)
Theorem every_definition_is_declared :
  (forall f, In f lib_cpp -> In f offered) /\
  NoDup (map name lib_hpp) /\
  NoDup lib_cpp.
Proof.
  split; [| split].
  - intros f Hf. apply list_elem_of_In. apply list_elem_of_In in Hf.
    revert f Hf. apply Forall_forall. vm_compute. repeat constructor.
  - refine (bool_decide_unpack _ _). vm_compute. exact I.
  - refine (bool_decide_unpack _ _). vm_compute. exact I.
Qed.

End MoreHeaderProperties.

Section ComposingWithWindowNew.
Import Qt Json Bridge.
Local Open Scope bridge_scope.
Context {text : QtText}.

(** X20.  Every [Window_new] makes a window of its own: the record, widget,
    layout and view of a second call are at addresses different from those
    of the first, and the objects of the first window are left exactly as
    they were. *)
Theorem Window_new_twice_shares_nothing (app_ptr app_ptr' : ptr)
    (start_url start_url' : string) (caller caller' : thread) (t : toolkit) :
  exists win1 t1 W1 win2 t2 W2,
    Window_new app_ptr start_url caller t = Some (win1, t1) /\
    Window_new app_ptr' start_url' caller' t1 = Some (win2, t2) /\
    heap t2 !! win1 = Some (OWindow W1) /\
    heap t2 !! win2 = Some (OWindow W2) /\
    win1 <> win2 /\
    window W1 <> window W2 /\
    window_layout W1 <> window_layout W2 /\
    web_engine_view W1 <> web_engine_view W2 /\
    heap t2 !! window W1 = heap t1 !! window W1 /\
    heap t2 !! window_layout W1 = heap t1 !! window_layout W1 /\
    heap t2 !! web_engine_view W1 = heap t1 !! web_engine_view W1.
Proof.
  destruct (Window_new_run app_ptr start_url caller t)
    as (pw & pl & pv & pn & w & l & v & t1 & Hr & _ & _ & _ & _ &
        Hn & Hw & Hl & Hv & _).
  destruct (Window_new_run app_ptr' start_url' caller' t1)
    as (pw' & pl' & pv' & pn' & w' & l' & v' & t2 & Hr' & Fw & Fl & Fv & Fn &
        Hn' & Hw' & Hl' & Hv' & _ & _ & Hframe & _).
  assert (D : forall p o, heap t1 !! p = Some o ->
                p <> pw' /\ p <> pl' /\ p <> pv' /\ p <> pn').
  { intros p o Ho. split; [| split; [| split]]; intros ->.
    - exact (lookup_None_Some _ _ _ Fw Ho).
    - exact (lookup_None_Some _ _ _ Fl Ho).
    - exact (lookup_None_Some _ _ _ Fv Ho).
    - exact (lookup_None_Some _ _ _ Fn Ho). }
  exists pn, t1, (mk_Window pw pl pv), pn', t2, (mk_Window pw' pl' pv').
  cbn [window window_layout web_engine_view].
  destruct (D _ _ Hn) as (? & ? & ? & ?), (D _ _ Hw) as (? & ? & ? & ?),
           (D _ _ Hl) as (? & ? & ? & ?), (D _ _ Hv) as (? & ? & ? & ?).
  split; [exact Hr |]. split; [exact Hr' |].
  split; [rewrite Hframe by assumption; exact Hn |].
  split; [exact Hn' |].
  do 4 (split; [assumption |]).
  repeat split; apply Hframe; assumption.
Qed.

(** X21.  [WebEngineView_load_url] on the view of a new window replaces the
    start URL: the view is loading the URL given last, and the window and
    its layout are as [Window_new] built them. *)
Theorem load_url_replaces_the_start_url (app_ptr : ptr) (start_url url : string)
    (caller caller' : thread) (t : toolkit) :
  exists win t1 W t2 v,
    Window_new app_ptr start_url caller t = Some (win, t1) /\
    heap t1 !! win = Some (OWindow W) /\
    WebEngineView_load_url (web_engine_view W) url caller' t1 = Some (tt, t2) /\
    heap t2 !! web_engine_view W = Some (OView v) /\
    loading v = Some (mk_QUrl (fromUtf8 url)) /\
    heap t2 !! window W = heap t1 !! window W /\
    heap t2 !! window_layout W = heap t1 !! window_layout W /\
    heap t2 !! win = heap t1 !! win.
Proof.
  destruct (Window_new_run app_ptr start_url caller t)
    as (pw & pl & pv & pn & w & l & v & t1 & Hr & _ & _ & _ & _ &
        Hn & Hw & Hl & Hv & _).
  pose proof (perform_on_handle (Do_WebEngineView_load_url pv url) pv caller' t1 eq_refl)
    as H.
  rewrite Hv in H. cbn [mbind option_bind effect perform] in H.
  destruct H as (t2 & Hrun & Hheap & _).
  assert (pw <> pv) by (intros ->; pose proof (lookup_same _ _ _ _ Hw Hv); discriminate).
  assert (pl <> pv) by (intros ->; pose proof (lookup_same _ _ _ _ Hl Hv); discriminate).
  assert (pn <> pv) by (intros ->; pose proof (lookup_same _ _ _ _ Hn Hv); discriminate).
  exists pn, t1, (mk_Window pw pl pv), t2. eexists.
  cbn [window window_layout web_engine_view].
  split; [exact Hr |]. split; [exact Hn |]. split; [exact Hrun |].
  rewrite Hheap.
  split; [apply lookup_insert_eq |]. split; [reflexivity |].
  repeat split; apply lookup_insert_ne; congruence.
Qed.

End ComposingWithWindowNew.
